(** * The product catalog service (services/product_service.py)

    A shallow embedding of [ProductService] and of its two query helpers
    [_sort_key] and [_matches], followed by the properties of the catalog
    that the specification states.

    - Python [str] is [string]; [str.lower] is modelled on ASCII letters.
    - Python [float] prices are exact rationals [Q]; the only operations the
      service performs on them are comparisons, and [float("inf")] is a
      separate sort key.
    - An untyped payload ([dict]) is a [gmap string value].
    - The catalog is a Python [dict], which iterates in insertion order: it is
      an association list with the [dict] operations written out.
    - An exception is a [Raise] result; every method takes the catalog and
      returns the catalog it leaves behind, also when it raises. *)

From Stdlib Require Import Ascii String QArith Qround.
From stdpp Require Import gmap strings list fin_maps sorting pretty.

Local Open Scope string_scope.
Local Open Scope Z_scope.

(** ** Strings *)

Definition ascii_lower (c : ascii) : ascii :=
  let n := nat_of_ascii c in
  if ((65 <=? n)%nat && (n <=? 90)%nat)%bool then ascii_of_nat (n + 32) else c.

(** [s.lower()] *)
Fixpoint lower (s : string) : string :=
  match s with
  | EmptyString => EmptyString
  | String c s' => String (ascii_lower c) (lower s')
  end.

(** [needle in hay] *)
Fixpoint str_in (needle hay : string) : bool :=
  String.prefix needle hay ||
  match hay with
  | EmptyString => false
  | String _ hay' => str_in needle hay'
  end.

(** Truthiness of an [Optional[str]]: neither [None] nor empty. *)
Definition truthy (o : option string) : bool :=
  match o with
  | Some s => negb (String.eqb s EmptyString)
  | None => false
  end.

(** [o or str()] *)
Definition or_empty (o : option string) : string :=
  match o with
  | Some s => s
  | None => EmptyString
  end.

(** ** Numbers *)

Definition Qltb (a b : Q) : bool := negb (Qle_bool b a).

(** ** Payloads *)

Inductive value :=
  | VNone
  | VBool (b : bool)
  | VNum (x : Q)
  | VStr (s : string)
  | VList (l : list string).

Abbreviation payload := (gmap string value).

Definition get_str (d : payload) (k : string) : option string :=
  match d !! k with
  | Some (VStr s) => Some s
  | _ => None
  end.

Definition get_num (d : payload) (k : string) : option Q :=
  match d !! k with
  | Some (VNum x) => Some x
  | _ => None
  end.

Definition get_bool (d : payload) (k : string) : option bool :=
  match d !! k with
  | Some (VBool b) => Some b
  | _ => None
  end.

Definition get_list (d : payload) (k : string) : option (list string) :=
  match d !! k with
  | Some (VList l) => Some l
  | _ => None
  end.

(** An optional string field: absent and [None] both give [None]. *)
Definition get_opt_str (d : payload) (k : string) : option (option string) :=
  match d !! k with
  | None | Some VNone => Some None
  | Some (VStr s) => Some (Some s)
  | _ => None
  end.

Definition non_negative (x : Q) : option Q :=
  if Qle_bool 0 x then Some x else None.

(** ** Products *)

(** Modelled from the spec: [Kind], [PhoneProduct] and [PlanProduct] are
    declared in product_controller.py, which is not part of the sources.
    The spec gives a product two variants told apart by a [kind] tag; the
    tag of a payload is the string "phone" or "plan". *)
Inductive Kind := phone | plan.

Definition Kind_eqb (a b : Kind) : bool :=
  match a, b with
  | phone, phone | plan, plan => true
  | _, _ => false
  end.

Definition Kind_value (k : Kind) : value :=
  match k with
  | phone => VStr "phone"
  | plan => VStr "plan"
  end.

(** [payload.get("kind")] compared with [Kind.phone] and [Kind.plan]. *)
Definition payload_kind (d : payload) : option Kind :=
  match d !! "kind" with
  | Some (VStr "phone") => Some phone
  | Some (VStr "plan") => Some plan
  | _ => None
  end.

Module PhoneProduct.

(** Modelled from the spec: the phone variant has a SKU, a name, a brand,
    a non-negative upfront price, a description, an ordered list of
    highlights and an active flag. *)
Record t := mk {
  sku : string;
  name : string;
  brand : string;
  upfront_price : Q;
  description : string;
  highlights : list string;
  active : bool
}.

(** Modelled from the spec: the validation gate of the phone shape
    (pydantic's [model_validate]); [None] stands for the
    [ValidationError] it raises on a missing field, a field of the wrong
    type or a negative price. Keys that are not fields are ignored. *)
Definition model_validate (d : payload) : option t :=
  s ← get_str d "sku";
  n ← get_str d "name";
  b ← get_str d "brand";
  p ← get_num d "upfront_price" ≫= non_negative;
  ds ← get_str d "description";
  h ← get_list d "highlights";
  a ← get_bool d "active";
  Some (mk s n b p ds h a).

(** Modelled from the spec: [model_dump], the full field set of a record. *)
Definition model_dump (p : t) : payload :=
  <["kind" := Kind_value phone]>
  (<["sku" := VStr (sku p)]>
  (<["name" := VStr (name p)]>
  (<["brand" := VStr (brand p)]>
  (<["upfront_price" := VNum (upfront_price p)]>
  (<["description" := VStr (description p)]>
  (<["highlights" := VList (highlights p)]>
  (<["active" := VBool (active p)]> ∅))))))).

End PhoneProduct.

Module PlanProduct.

(** Modelled from the spec: the plan variant has a SKU, a name, an
    optional network, a non-negative monthly fee, a description, an
    ordered list of highlights and an active flag. *)
Record t := mk {
  sku : string;
  name : string;
  network : option string;
  monthly_fee : Q;
  description : string;
  highlights : list string;
  active : bool
}.

(** Modelled from the spec: the validation gate of the plan shape. *)
Definition model_validate (d : payload) : option t :=
  s ← get_str d "sku";
  n ← get_str d "name";
  nw ← get_opt_str d "network";
  f ← get_num d "monthly_fee" ≫= non_negative;
  ds ← get_str d "description";
  h ← get_list d "highlights";
  a ← get_bool d "active";
  Some (mk s n nw f ds h a).

Definition network_value (o : option string) : value :=
  match o with
  | Some s => VStr s
  | None => VNone
  end.

(** Modelled from the spec: [model_dump], the full field set of a record. *)
Definition model_dump (p : t) : payload :=
  <["kind" := Kind_value plan]>
  (<["sku" := VStr (sku p)]>
  (<["name" := VStr (name p)]>
  (<["network" := network_value (network p)]>
  (<["monthly_fee" := VNum (monthly_fee p)]>
  (<["description" := VStr (description p)]>
  (<["highlights" := VList (highlights p)]>
  (<["active" := VBool (active p)]> ∅))))))).

End PlanProduct.

(** [Product = PhoneProduct | PlanProduct] *)
Inductive Product :=
  | Phone (p : PhoneProduct.t)
  | Plan (p : PlanProduct.t).

(** Attribute access on a product of either variant. *)
Definition sku (prod : Product) : string :=
  match prod with
  | Phone p => PhoneProduct.sku p
  | Plan p => PlanProduct.sku p
  end.

Definition name (prod : Product) : string :=
  match prod with
  | Phone p => PhoneProduct.name p
  | Plan p => PlanProduct.name p
  end.

Definition description (prod : Product) : string :=
  match prod with
  | Phone p => PhoneProduct.description p
  | Plan p => PlanProduct.description p
  end.

Definition highlights (prod : Product) : list string :=
  match prod with
  | Phone p => PhoneProduct.highlights p
  | Plan p => PlanProduct.highlights p
  end.

Definition active (prod : Product) : bool :=
  match prod with
  | Phone p => PhoneProduct.active p
  | Plan p => PlanProduct.active p
  end.

Definition kind (prod : Product) : Kind :=
  match prod with
  | Phone _ => phone
  | Plan _ => plan
  end.

Definition model_dump (prod : Product) : payload :=
  match prod with
  | Phone p => PhoneProduct.model_dump p
  | Plan p => PlanProduct.model_dump p
  end.

(** [model.model_validate(d)] for the model that [k] selects. *)
Definition model_validate (k : Kind) (d : payload) : option Product :=
  match k with
  | phone => Phone <$> PhoneProduct.model_validate d
  | plan => Plan <$> PlanProduct.model_validate d
  end.

(** ** Sort keys *)

(** What [_sort_key] returns: a lowercased name, a price, or
    [float("inf")]. One call of [list.sort] only ever compares keys of one
    sort token, so a string and a number never meet (Python would raise
    [TypeError]); placing strings first keeps the comparison total. *)
Inductive sort_key :=
  | KStr (s : string)
  | KNum (x : Q)
  | KInf.

(** [a < b] on keys *)
Definition key_ltb (a b : sort_key) : bool :=
  match a, b with
  | KStr s, KStr t => String.ltb s t
  | KStr _, _ => true
  | KNum _, KStr _ => false
  | KNum x, KNum y => Qltb x y
  | KNum _, KInf => true
  | KInf, _ => false
  end.

Definition upfront_price_or_inf (prod : Product) : sort_key :=
  match prod with
  | Phone p => KNum (PhoneProduct.upfront_price p)
  | Plan _ => KInf
  end.

Definition monthly_fee_or_inf (prod : Product) : sort_key :=
  match prod with
  | Phone _ => KInf
  | Plan p => KNum (PlanProduct.monthly_fee p)
  end.

Definition _sort_key (prod : Product) (key : string) : sort_key :=
  if String.eqb key "name" || String.eqb key "-name" then
    KStr (lower (name prod))
  else if String.eqb key "upfront_price" || String.eqb key "-upfront_price" then
    upfront_price_or_inf prod
  else if String.eqb key "monthly_fee" || String.eqb key "-monthly_fee" then
    monthly_fee_or_inf prod
  else
    KStr (lower (name prod)).

(** ** The filter predicate *)

(** [getattr(prod, "brand", str())] *)
Definition brand_or_empty (prod : Product) : string :=
  match prod with
  | Phone p => PhoneProduct.brand p
  | Plan _ => EmptyString
  end.

(** [getattr(prod, "network", str()) or str()] *)
Definition network_or_empty (prod : Product) : string :=
  match prod with
  | Phone _ => EmptyString
  | Plan p => or_empty (PlanProduct.network p)
  end.

(** The haystack of the free-text query, before lowercasing. *)
Definition hay (prod : Product) : string :=
  String.concat " "
    [name prod; brand_or_empty prod; network_or_empty prod; description prod;
     String.concat " " (highlights prod)].

Definition _matches (prod : Product) (q : option string) (kind_ : option Kind)
    (brand network : option string) (min_upfront max_upfront : option Q) : bool :=
  if negb (active prod) then false else
  if match kind_ with
     | Some k => negb (Kind_eqb (kind prod) k)
     | None => false
     end
  then false else
  if match prod with
     | Phone p =>
         (truthy brand &&
          negb (String.eqb (lower (PhoneProduct.brand p)) (lower (or_empty brand))))
         || match min_upfront with
            | Some lo => Qltb (PhoneProduct.upfront_price p) lo
            | None => false
            end
         || match max_upfront with
            | Some hi => Qltb hi (PhoneProduct.upfront_price p)
            | None => false
            end
     | Plan _ => false
     end
  then false else
  if match prod with
     | Plan p =>
         truthy network && truthy (PlanProduct.network p) &&
         negb (String.eqb (lower (or_empty (PlanProduct.network p)))
                          (lower (or_empty network)))
     | Phone _ => false
     end
  then false else
  if truthy q then
    if negb (str_in (lower (or_empty q)) (lower (hay prod))) then false else true
  else true.

(** ** Python containers *)

(** A [dict] with string keys, in insertion order. *)
Section Dict.
Context {V : Type}.

Abbreviation dict := (list (string * V)).

(** [d.get(k)] *)
Fixpoint dict_get (k : string) (d : dict) : option V :=
  match d with
  | [] => None
  | (k', v) :: d' => if String.eqb k' k then Some v else dict_get k d'
  end.

(** [k in d] *)
Definition dict_contains (k : string) (d : dict) : bool :=
  match dict_get k d with
  | Some _ => true
  | None => false
  end.

(** [d[k] = v]: a present key keeps its place, a new one goes last. *)
Fixpoint dict_set (k : string) (v : V) (d : dict) : dict :=
  match d with
  | [] => [(k, v)]
  | (k', v') :: d' =>
      if String.eqb k' k then (k', v) :: d' else (k', v') :: dict_set k v d'
  end.

(** [del d[k]] for a present key *)
Fixpoint dict_del (k : string) (d : dict) : dict :=
  match d with
  | [] => []
  | (k', v') :: d' =>
      if String.eqb k' k then d' else (k', v') :: dict_del k d'
  end.

(** [d.values()] *)
Definition dict_values (d : dict) : list V := map snd d.

Definition dict_keys (d : dict) : list string := map fst d.
End Dict.

(** [list.sort(key=..., reverse=...)]: the stable sort, which compares
    keys with [<] only. With [reverse=True] the list is reversed, sorted
    and reversed again, as CPython does to keep equal keys in their
    original order. *)
Section Sort.
Context {A K : Type} (ltb : K -> K -> bool) (key : A -> K).

Fixpoint insert_sorted (x : A) (l : list A) : list A :=
  match l with
  | [] => [x]
  | y :: l' =>
      if ltb (key y) (key x) then y :: insert_sorted x l' else x :: y :: l'
  end.

Definition stable_sort (l : list A) : list A := foldr insert_sorted [] l.

Definition list_sort (reverse : bool) (l : list A) : list A :=
  if reverse then rev (stable_sort (rev l)) else stable_sort l.

(** [a] may stand before [b] in ascending order: [key b < key a] fails. *)
Definition ascending (a b : A) : Prop := ltb (key b) (key a) = false.

Definition descending (a b : A) : Prop := ascending b a.

(** The elements whose key is in the class of [k]: neither below nor
    above it. *)
Definition tied (k : K) (a : A) : bool :=
  negb (ltb k (key a)) && negb (ltb (key a) k).
End Sort.

(** [l[start:stop]] with Python's treatment of negative and
    out-of-range indices. *)
Definition slice_index (len i : Z) : Z :=
  if i <? 0 then Z.max 0 (i + len) else Z.min i len.

Definition py_slice {A : Type} (l : list A) (start stop : Z) : list A :=
  let len := Z.of_nat (length l) in
  let lo := slice_index len start in
  let hi := slice_index len stop in
  firstn (Z.to_nat (hi - lo)) (skipn (Z.to_nat lo) l).

(** [s[1:]] *)
Definition str_tail (s : string) : string :=
  match s with
  | EmptyString => EmptyString
  | String _ s' => s'
  end.

(** ** Exceptions *)

Inductive exn :=
  | KeyError (msg : string)
  | ValueError (msg : string)
  | ValidationError.

Inductive result (A : Type) :=
  | Ok (a : A)
  | Raise (e : exn).

Arguments Ok {A} a.
Arguments Raise {A} e.

Abbreviation catalog := (list (string * Product)).

(** ** The service *)

Module ProductService.

(** [__init__(seed)] *)
Definition init (seed : list Product) : catalog :=
  fold_left (fun c p => dict_set (sku p) p c) seed [].

(** The local [items] of [list] once filtered and sorted. *)
Definition sorted_items (c : catalog) (q : option string) (kind_ : option Kind)
    (brand network : option string) (min_upfront max_upfront : option Q)
    (sort : string) : list Product :=
  let items :=
    List.filter
      (fun p => _matches p q kind_ brand network min_upfront max_upfront)
      (dict_values c) in
  let reverse :=
    if String.eqb sort EmptyString then false else String.prefix "-" sort in
  let key :=
    if reverse then str_tail sort
    else if String.eqb sort EmptyString then "name" else sort in
  list_sort key_ltb
    (fun p => _sort_key p (if negb reverse then key else "-" ++ key))
    reverse items.

(** [list(q=, kind=, brand=, network=, min_upfront=, max_upfront=, sort=,
    page=, page_size=)] *)
Definition list_ (c : catalog) (q : option string) (kind_ : option Kind)
    (brand network : option string) (min_upfront max_upfront : option Q)
    (sort : string) (page page_size : Z) : list Product * Z :=
  let items :=
    sorted_items c q kind_ brand network min_upfront max_upfront sort in
  let total := Z.of_nat (length items) in
  let start := Z.max 0 ((page - 1) * page_size) in
  let end_ := start + page_size in
  (py_slice items start end_, total).

Definition get (c : catalog) (sku0 : string) : result Product :=
  match dict_get sku0 c with
  | None => Raise (KeyError "Product not found")
  | Some prod => Ok prod
  end.

Definition create (payload0 : payload) (c : catalog)
    : catalog * result Product :=
  match payload_kind payload0 with
  | None => (c, Raise (ValueError "Invalid kind; must be 'phone' or 'plan'"))
  | Some k =>
      match model_validate k payload0 with
      | None => (c, Raise ValidationError)
      | Some prod =>
          if dict_contains (sku prod) c then
            (c, Raise (ValueError "SKU already exists"))
          else (dict_set (sku prod) prod c, Ok prod)
      end
  end.

Definition update (sku0 : string) (updates : payload) (c : catalog)
    : catalog * result Product :=
  match dict_get sku0 c with
  | None => (c, Raise (KeyError "Product not found"))
  | Some existing =>
      let data := updates ∪ model_dump existing in
      match payload_kind data with
      | None => (c, Raise (ValueError "Invalid kind"))
      | Some k =>
          match model_validate k data with
          | None => (c, Raise ValidationError)
          | Some updated => (dict_set sku0 updated c, Ok updated)
          end
      end
  end.

(** The [for] loop of [upsert_many], with the running [count]. *)
Fixpoint upsert_loop (items : list payload) (c : catalog) (count : Z)
    : catalog * result Z :=
  match items with
  | [] => (c, Ok count)
  | it :: rest =>
      match payload_kind it with
      | None => upsert_loop rest c count
      | Some k =>
          match model_validate k it with
          | None => (c, Raise ValidationError)
          | Some prod =>
              upsert_loop rest (dict_set (sku prod) prod c) (count + 1)
          end
      end
  end.

Definition upsert_many (items : list payload) (c : catalog)
    : catalog * result Z :=
  upsert_loop items c 0.

Definition delete (sku0 : string) (c : catalog) : catalog * result unit :=
  if negb (dict_contains sku0 c) then
    (c, Raise (KeyError "Product not found"))
  else (dict_del sku0 c, Ok tt).

Definition count (c : catalog) : Z := Z.of_nat (length c).

(** [sorted(seen)] for a set of strings: the elements of the set, in
    whatever order the set iterates, put in ascending order. *)
Definition sorted_set (seen : gset string) : list string :=
  stable_sort String.ltb (fun s => s) (elements seen).

(** The loop of [brands]: the brand of every phone record is added. *)
Definition brands_seen (c : catalog) : gset string :=
  fold_left
    (fun seen p =>
       match p with
       | Phone ph => {[PhoneProduct.brand ph]} ∪ seen
       | Plan _ => seen
       end)
    (dict_values c) ∅.

Definition brands (c : catalog) : list string := sorted_set (brands_seen c).

(** The loop of [networks]: the network of every plan record that has a
    non-empty one is added. *)
Definition networks_seen (c : catalog) : gset string :=
  fold_left
    (fun seen p =>
       match p with
       | Plan pl =>
           if truthy (PlanProduct.network pl)
           then {[or_empty (PlanProduct.network pl)]} ∪ seen
           else seen
       | Phone _ => seen
       end)
    (dict_values c) ∅.

Definition networks (c : catalog) : list string := sorted_set (networks_seen c).

End ProductService.

(** ** Histories of calls *)

(** A mutating call of the service. *)
Inductive op :=
  | OpCreate (payload0 : payload)
  | OpUpdate (sku0 : string) (updates : payload)
  | OpUpsertMany (items : list payload)
  | OpDelete (sku0 : string).

(** What a caller can tell happened to a key. *)
Inductive event :=
  | Written (k : string) (p : Product)
  | Deleted (k : string).

(** The records that [upsert_many] writes: every payload of a known kind,
    validated, up to the first one that [model_validate] rejects. *)
Fixpoint upsert_written (items : list payload) : list Product :=
  match items with
  | [] => []
  | it :: rest =>
      match payload_kind it with
      | None => upsert_written rest
      | Some k =>
          match model_validate k it with
          | None => []
          | Some prod => prod :: upsert_written rest
          end
      end
  end.

(** Writing a list of records in turn, each under its own SKU. *)
Definition upsert_all (ps : list Product) (c : catalog) : catalog :=
  fold_left (fun c p => dict_set (sku p) p c) ps c.

Definition written_events (ps : list Product) : list event :=
  map (fun p => Written (sku p) p) ps.

(** One call: the catalog it leaves and the events it reports. A call that
    raises reports nothing, except [upsert_many], which reports the records
    it wrote. *)
Definition run_op (o : op) (c : catalog) : catalog * list event :=
  match o with
  | OpCreate payload0 =>
      match ProductService.create payload0 c with
      | (c', Ok prod) => (c', [Written (sku prod) prod])
      | (c', Raise _) => (c', [])
      end
  | OpUpdate sku0 updates =>
      match ProductService.update sku0 updates c with
      | (c', Ok prod) => (c', [Written sku0 prod])
      | (c', Raise _) => (c', [])
      end
  | OpUpsertMany items =>
      (fst (ProductService.upsert_many items c),
       written_events (upsert_written items))
  | OpDelete sku0 =>
      match ProductService.delete sku0 c with
      | (c', Ok _) => (c', [Deleted sku0])
      | (c', Raise _) => (c', [])
      end
  end.

(** A sequence of calls, oldest first, with the events in the same order. *)
Fixpoint run (ops : list op) (c : catalog) : catalog * list event :=
  match ops with
  | [] => (c, [])
  | o :: ops' =>
      let '(c1, ev1) := run_op o c in
      let '(c2, ev2) := run ops' c1 in
      (c2, (ev1 ++ ev2)%list)
  end.

(** The record most recently written for [k], if [k] was not deleted since;
    [evs] is read newest first. *)
Fixpoint latest (k : string) (evs : list event) : option Product :=
  match evs with
  | [] => None
  | Written k' p :: evs' => if String.eqb k' k then Some p else latest k evs'
  | Deleted k' :: evs' => if String.eqb k' k then None else latest k evs'
  end.

Definition most_recent (k : string) (evs : list event) : option Product :=
  latest k (rev evs).

(** ** Predicates of the statements *)

(** Every record is stored under its own SKU. *)
Definition keys_match (c : catalog) : Prop :=
  Forall (fun kp => sku (snd kp) = fst kp) c.

(** The six sort tokens of [Sortable]. *)
Definition recognized (sort : string) : bool :=
  String.eqb sort "name" || String.eqb sort "-name" ||
  String.eqb sort "upfront_price" || String.eqb sort "-upfront_price" ||
  String.eqb sort "monthly_fee" || String.eqb sort "-monthly_fee".

(** Two keys that [<] does not tell apart. *)
Definition key_tie (a b : sort_key) : bool :=
  negb (key_ltb a b) && negb (key_ltb b a).

(** The token that [list] hands to [_sort_key]. *)
Definition sort_token (sort : string) : string :=
  if String.eqb sort EmptyString then "name" else sort.

(** Ascending and descending order of lowercased names. *)
Definition name_le (a b : Product) : Prop :=
  String.leb (lower (name a)) (lower (name b)) = true.

Definition name_ge (a b : Product) : Prop := name_le b a.

(** [ceil(total / page_size)] *)
Definition page_count (total page_size : Z) : Z :=
  (total + page_size - 1) / page_size.

(** Strictly ascending strings. *)
Definition str_lt (a b : string) : Prop := String.ltb a b = true.

(** Ascending upfront price, the records without one (plans) last. *)
Definition upfront_le (a b : Product) : Prop :=
  match a, b with
  | Phone x, Phone y =>
      (PhoneProduct.upfront_price x <= PhoneProduct.upfront_price y)%Q
  | Phone _, Plan _ => True
  | Plan _, Phone _ => False
  | Plan _, Plan _ => True
  end.

(** Ascending monthly fee, the records without one (phones) last. *)
Definition monthly_le (a b : Product) : Prop :=
  match a, b with
  | Plan x, Plan y =>
      (PlanProduct.monthly_fee x <= PlanProduct.monthly_fee y)%Q
  | Plan _, Phone _ => True
  | Phone _, Plan _ => False
  | Phone _, Phone _ => True
  end.

(** The payloads whose kind is "phone" or "plan". *)
Definition known_kind (it : payload) : bool :=
  match payload_kind it with
  | Some _ => true
  | None => false
  end.

(** ** Sample data *)

Definition phone_payload (s n b : string) (price : Q) (a : bool) : payload :=
  <["kind" := VStr "phone"]>
  (<["sku" := VStr s]>
  (<["name" := VStr n]>
  (<["brand" := VStr b]>
  (<["upfront_price" := VNum price]>
  (<["description" := VStr "a phone"]>
  (<["highlights" := VList ["5G"]]>
  (<["active" := VBool a]> ∅))))))).

Definition p1 : Product :=
  Phone (PhoneProduct.mk "p1" "Alpha" "Acme" (500 # 1) "a phone" ["5G"] true).

Definition basic_plan : PlanProduct.t :=
  PlanProduct.mk "s1" "Basic" (Some "NetA") (20 # 1) "a plan" [] true.

Definition s1 : Product := Plan basic_plan.

Definition p1_inactive : Product :=
  Phone (PhoneProduct.mk "p1" "Alpha" "Acme" (500 # 1) "a phone" ["5G"] false).

Definition p1_renamed : Product :=
  Phone (PhoneProduct.mk "p2" "Alpha" "Acme" (500 # 1) "a phone" ["5G"] true).

Definition p2 : Product :=
  Phone (PhoneProduct.mk "p2" "Beta" "Acme" (300 # 1) "a phone" ["5G"] true).

Definition bare_plan : PlanProduct.t :=
  PlanProduct.mk "s0" "Bare" None (10 # 1) "a plan" [] true.

(** A payload of a known kind with every other field missing. *)
Definition bad_shape_payload : payload := {["kind" := VStr "phone"]}.

(** A payload with no kind. *)
Definition no_kind_payload : payload := {["sku" := VStr "x"]}.

(** * The cart service (services/cart_service.py) *)

(** Python floats are kept abstract. The cart and the checkout add them,
    multiply them, round them to two decimals and truncate them; the
    statements below hold whatever these operations compute. *)
Record float_ops := {
  float :> Type;
  (** [0.0] *)
  fzero : float;
  (** [x + y] *)
  fadd : float -> float -> float;
  (** [x * n] for an [int] [n] *)
  fmul_int : float -> Z -> float;
  (** [x * y] *)
  fmul : float -> float -> float;
  (** [round(x, 2)] *)
  fround2 : float -> float;
  (** [float(f"{x:.2f}")] *)
  fformat2 : float -> float;
  (** [int(x)] *)
  ftrunc : float -> Z
}.

(** A [dict] with keys of any type that has a decidable equality, in
    insertion order. *)
Section KDict.
Context {K V : Type} `{EqDecision K}.

(** [d.get(k)] *)
Fixpoint kdict_get (k : K) (d : list (K * V)) : option V :=
  match d with
  | [] => None
  | (k', v) :: d' => if bool_decide (k' = k) then Some v else kdict_get k d'
  end.

(** [d[k] = v] *)
Fixpoint kdict_set (k : K) (v : V) (d : list (K * V)) : list (K * V) :=
  match d with
  | [] => [(k, v)]
  | (k', v') :: d' =>
      if bool_decide (k' = k) then (k', v) :: d' else (k', v') :: kdict_set k v d'
  end.

(** [d.pop(k, None)]: an absent key is no error. *)
Fixpoint kdict_pop (k : K) (d : list (K * V)) : list (K * V) :=
  match d with
  | [] => []
  | (k', v') :: d' =>
      if bool_decide (k' = k) then d' else (k', v') :: kdict_pop k d'
  end.
End KDict.

(** [s.split("|", 1)] when it yields two parts: the text before the first
    bar and the text after it. Without a bar it yields one part, and the
    unpacking into two names raises [ValueError]. *)
Fixpoint split_bar (s : string) : option (string * string) :=
  match s with
  | EmptyString => None
  | String ch s' =>
      if Ascii.eqb ch "|" then Some (EmptyString, s')
      else match split_bar s' with
           | Some (a, b) => Some (String ch a, b)
           | None => None
           end
  end.

(** The key of a cart entry, [(sku, kind)]. *)
Abbreviation cart_key := (string * string)%type.

(** One cart, [dict[(sku, kind) -> qty]]. *)
Abbreviation cart := (list (cart_key * Z)).

(** [InMemoryCartStore.carts], [dict[session_id -> cart]]. *)
Abbreviation carts := (gmap string (list (cart_key * Z))).

Module CartLine.
Record t (F : Type) := mk {
  sku : string;
  kind : string;
  qty : Z;
  label : string;
  upfront_subtotal : F;
  monthly_subtotal : F
}.
Arguments mk {F}.
Arguments sku {F}.
Arguments kind {F}.
Arguments qty {F}.
Arguments label {F}.
Arguments upfront_subtotal {F}.
Arguments monthly_subtotal {F}.
End CartLine.

Module CartTotals.
Record t (F : Type) := mk {
  upfront_total : F;
  monthly_total : F;
  item_count : Z
}.
Arguments mk {F}.
Arguments upfront_total {F}.
Arguments monthly_total {F}.
Arguments item_count {F}.
End CartTotals.

Module CartView.
Record t (F : Type) := mk {
  items : list (CartLine.t F);
  totals : CartTotals.t F
}.
Arguments mk {F}.
Arguments items {F}.
Arguments totals {F}.
End CartView.

Module InMemoryCartStore.

(** [carts.setdefault(session_id, {})]: the cart of the session, which is
    created empty when the session has none. The cart that is returned is
    the one the store holds, so a caller that changes it changes the store. *)
Definition get_cart (session_id : string) (st : carts) : carts * cart :=
  match st !! session_id with
  | Some c => (st, c)
  | None => (<[session_id := []]> st, [])
  end.

Definition set_qty (session_id sku kind : string) (qty : Z) (st : carts) : carts :=
  let '(st1, c) := get_cart session_id st in
  let key := (sku, kind) in
  if qty <=? 0 then <[session_id := kdict_pop key c]> st1
  else <[session_id := kdict_set key qty c]> st1.

Definition clear (session_id : string) (st : carts) : carts :=
  <[session_id := []]> st.

End InMemoryCartStore.

Module CartService.
Section WithPrices.

(** Modelled from the spec: [CATALOG] and [PLANS] come from the module
    [models], which is not part of the sources. The import comment gives
    them as dictionaries from a SKU to an entry with a price (phones) or a
    monthly fee (plans); the code also reads the name of an entry. An entry
    is a name and an amount here. *)
Context (F : float_ops) (CATALOG PLANS : gmap string (string * F)).

Definition price_phone (sku : string) : result (string * F * F) :=
  match CATALOG !! sku with
  | None => Raise (KeyError ("Unknown phone SKU: " ++ sku))
  | Some (name, price) => Ok (name, price, fzero F)
  end.

Definition price_plan (sku : string) : result (string * F * F) :=
  match PLANS !! sku with
  | None => Raise (KeyError ("Unknown plan SKU: " ++ sku))
  | Some (name, monthly) => Ok (name, fzero F, monthly)
  end.

(** [(label, upfront_price, monthly_price)] for one unit of the item. *)
Definition _price_for_item (sku kind : string) : result (string * F * F) :=
  if String.eqb kind "phone" then price_phone sku
  else if String.eqb kind "plan" then price_plan sku
  else if String.eqb kind "bundle" then
    match split_bar sku with
    | None =>
        Raise (KeyError
                 ("Invalid bundle SKU format (expected 'phone|plan'): " ++ sku))
    | Some (phone_sku, plan_sku) =>
        match price_phone phone_sku with
        | Raise e => Raise e
        | Ok (phone_name, up, _) =>
            match price_plan plan_sku with
            | Raise e => Raise e
            | Ok (plan_name, _, mo) => Ok (phone_name ++ " + " ++ plan_name, up, mo)
            end
        end
    end
  else Raise (KeyError ("Unknown kind: " ++ kind)).

(** The [for] loop of [_materialize], with the lines and the two running
    totals. *)
Fixpoint materialize_loop (entries : cart) (items : list (CartLine.t F))
    (upfront_total monthly_total : F) : result (list (CartLine.t F) * F * F) :=
  match entries with
  | [] => Ok (items, upfront_total, monthly_total)
  | ((sku, kind), qty) :: rest =>
      if qty <=? 0 then materialize_loop rest items upfront_total monthly_total
      else
        match _price_for_item sku kind with
        | Raise e => Raise e
        | Ok (label, up, mo) =>
            let up_sub := fround2 F (fmul_int F up qty) in
            let mo_sub := fround2 F (fmul_int F mo qty) in
            materialize_loop rest
              (items ++ [CartLine.mk sku kind qty label up_sub mo_sub])%list
              (fadd F upfront_total up_sub) (fadd F monthly_total mo_sub)
        end
  end.

(** [sum(qty for qty in cart_map.values() if qty > 0)] *)
Definition item_count (cart_map : cart) : Z :=
  fold_left (fun acc kq => if 0 <? snd kq then acc + snd kq else acc) cart_map 0.

Definition _materialize (cart_map : cart) : result (CartView.t F) :=
  match materialize_loop cart_map [] (fzero F) (fzero F) with
  | Raise e => Raise e
  | Ok (items, upfront_total, monthly_total) =>
      Ok (CartView.mk items
            (CartTotals.mk (fround2 F upfront_total) (fround2 F monthly_total)
               (item_count cart_map)))
  end.

Definition view (session_id : string) (st : carts) : carts * result (CartView.t F) :=
  let '(st1, cart_map) := InMemoryCartStore.get_cart session_id st in
  (st1, _materialize cart_map).

Definition add (session_id sku kind : string) (qty : Z) (st : carts)
    : carts * result (CartView.t F) :=
  if qty <? 1 then (st, Raise (ValueError "qty must be >= 1"))
  else
    match _price_for_item sku kind with
    | Raise e => (st, Raise e)
    | Ok _ =>
        let '(st1, c) := InMemoryCartStore.get_cart session_id st in
        let key := (sku, kind) in
        let c' := kdict_set key (default 0 (kdict_get key c) + qty) c in
        (<[session_id := c']> st1, _materialize c')
    end.

Definition update_qty (session_id sku kind : string) (qty : Z) (st : carts)
    : carts * result (CartView.t F) :=
  if qty <? 0 then (st, Raise (ValueError "qty must be >= 0"))
  else
    match (if 0 <? qty then _price_for_item sku kind
           else Ok (EmptyString, fzero F, fzero F)) with
    | Raise e => (st, Raise e)
    | Ok _ => view session_id (InMemoryCartStore.set_qty session_id sku kind qty st)
    end.

Definition remove (session_id sku kind : string) (st : carts)
    : carts * result (CartView.t F) :=
  view session_id (InMemoryCartStore.set_qty session_id sku kind 0 st).

Definition clear (session_id : string) (st : carts)
    : carts * result (CartView.t F) :=
  view session_id (InMemoryCartStore.clear session_id st).

End WithPrices.
End CartService.

(** A call of the cart service. *)
Inductive cart_op :=
  | CartView_ (session_id : string)
  | CartAdd (session_id sku kind : string) (qty : Z)
  | CartUpdateQty (session_id sku kind : string) (qty : Z)
  | CartRemove (session_id sku kind : string)
  | CartClear (session_id : string).

Definition cart_step (F : float_ops) (CATALOG PLANS : gmap string (string * F))
    (o : cart_op) (st : carts) : carts * result (CartView.t F) :=
  match o with
  | CartView_ s => CartService.view F CATALOG PLANS s st
  | CartAdd s sku kind qty => CartService.add F CATALOG PLANS s sku kind qty st
  | CartUpdateQty s sku kind qty =>
      CartService.update_qty F CATALOG PLANS s sku kind qty st
  | CartRemove s sku kind => CartService.remove F CATALOG PLANS s sku kind st
  | CartClear s => CartService.clear F CATALOG PLANS s st
  end.

(** The store after a sequence of calls, the ones that raise included. *)
Definition cart_run (F : float_ops) (CATALOG PLANS : gmap string (string * F))
    (ops : list cart_op) (st : carts) : carts :=
  fold_left (fun st o => fst (cart_step F CATALOG PLANS o st)) ops st.

(** Every entry of the cart has a quantity of at least 1 and an item that
    [_price_for_item] prices. *)
Definition entry_ok (F : float_ops) (CATALOG PLANS : gmap string (string * F))
    (kq : cart_key * Z) : Prop :=
  1 <= snd kq /\
  exists r, CartService._price_for_item F CATALOG PLANS
              (fst (fst kq)) (snd (fst kq)) = Ok r.

Definition cart_ok (F : float_ops) (CATALOG PLANS : gmap string (string * F))
    (c : cart) : Prop :=
  List.NoDup (map fst c) /\ Forall (entry_ok F CATALOG PLANS) c.

(** What a line of the view says of its cart entry. *)
Definition line_entry {F : Type} (l : CartLine.t F) : cart_key * Z :=
  ((CartLine.sku l, CartLine.kind l), CartLine.qty l).

(** The session a call is about. *)
Definition op_session (o : cart_op) : string :=
  match o with
  | CartView_ s | CartAdd s _ _ _ | CartUpdateQty s _ _ _
  | CartRemove s _ _ | CartClear s => s
  end.

Definition store_ok (F : float_ops) (CATALOG PLANS : gmap string (string * F))
    (st : carts) : Prop :=
  forall s c, st !! s = Some c -> cart_ok F CATALOG PLANS c.

(** The cart of a session as [view] finds it. *)
Definition cart_of (session_id : string) (st : carts) : cart :=
  default [] (st !! session_id).

(** A sample arithmetic for the instances: exact rationals, rounded to the
    nearest hundredth. *)
Definition exact : float_ops := {|
  float := Q;
  fzero := 0%Q;
  fadd := Qplus;
  fmul_int := fun x n => (x * inject_Z n)%Q;
  fmul := Qmult;
  fround2 := fun x => (inject_Z (Qfloor (x * 100 + (1 # 2))) / 100)%Q;
  fformat2 := fun x => (inject_Z (Qfloor (x * 100 + (1 # 2))) / 100)%Q;
  ftrunc := fun x => if Qle_bool 0 x then Qfloor x else Qceiling x
|}.

Definition sample_CATALOG : gmap string (string * Q) :=
  {["p-iphone-15" := ("iPhone 15", 999 # 1)]}.

Definition sample_PLANS : gmap string (string * Q) :=
  {["plan-basic" := ("Basic", 20 # 1)]}.

(** * The checkout service (services/checkout_service.py) *)

Module CartItem.
Record t := mk {
  sku : string;
  kind : string;
  qty : Z
}.
End CartItem.

Module LineSummary.
Record t (F : Type) := mk {
  label : string;
  amount : F
}.
Arguments mk {F}.
Arguments label {F}.
Arguments amount {F}.
End LineSummary.

Module Quote.
Record t (F : Type) := mk {
  currency : string;
  items : list (LineSummary.t F);
  shipping : LineSummary.t F;
  tax : LineSummary.t F;
  monthly_total : F;
  grand_total : F
}.
Arguments mk {F}.
Arguments currency {F}.
Arguments items {F}.
Arguments shipping {F}.
Arguments tax {F}.
Arguments monthly_total {F}.
Arguments grand_total {F}.
End Quote.

Module ShippingOption.
(** Modelled from the spec: [ShippingOption] comes from the module [models],
    which is not part of the sources. The checkout reads the name of an
    option and calls its [calculate_cost()]; an option is its name and the
    cost that call returns. *)
Record t (F : Type) := mk {
  name : string;
  calculate_cost : F
}.
Arguments mk {F}.
Arguments name {F}.
Arguments calculate_cost {F}.
End ShippingOption.

Module CheckoutService.

(** The fields that [__init__] sets. *)
Record t (F : Type) := mk {
  shipping_options : list (ShippingOption.t F);
  currency : string;
  tax_rate : F;
  tax_on_shipping : bool
}.
Arguments mk {F}.
Arguments shipping_options {F}.
Arguments currency {F}.
Arguments tax_rate {F}.
Arguments tax_on_shipping {F}.

Section WithPrices.
(** [CATALOG] and [PLANS] of the module [models], as for the cart. *)
Context (F : float_ops) (CATALOG PLANS : gmap string (string * F)).

Definition _round2 (x : F) : F := fformat2 F x.

Definition price_phone (sku : string) : result (string * F * F) :=
  match CATALOG !! sku with
  | None => Raise (KeyError ("Unknown phone SKU: " ++ sku))
  | Some (name, price) => Ok (name, price, fzero F)
  end.

Definition price_plan (sku : string) : result (string * F * F) :=
  match PLANS !! sku with
  | None => Raise (KeyError ("Unknown plan SKU: " ++ sku))
  | Some (name, monthly) => Ok (name, fzero F, monthly)
  end.

(** [(label, upfront_price, monthly_price)] for one unit. *)
Definition _price_for_item (sku kind : string) : result (string * F * F) :=
  if String.eqb kind "phone" then price_phone sku
  else if String.eqb kind "plan" then price_plan sku
  else if String.eqb kind "bundle" then
    match split_bar sku with
    | None =>
        Raise (KeyError
                 ("Invalid bundle sku '" ++ sku ++ "', expected 'phoneSku|planSku'"))
    | Some (phone_sku, plan_sku) =>
        match price_phone phone_sku with
        | Raise e => Raise e
        | Ok (phone_name, up, _) =>
            match price_plan plan_sku with
            | Raise e => Raise e
            | Ok (plan_name, _, mo) => Ok (phone_name ++ " + " ++ plan_name, up, mo)
            end
        end
    end
  else Raise (KeyError ("Unknown kind: " ++ kind)).

(** The [for] loop of [quote], with the two running sums and the lines. *)
Fixpoint quote_loop (items : list CartItem.t) (upfront monthly : F)
    (line_summaries : list (LineSummary.t F))
    : result (F * F * list (LineSummary.t F)) :=
  match items with
  | [] => Ok (upfront, monthly, line_summaries)
  | it :: rest =>
      if CartItem.qty it <? 1 then Raise (ValueError "Quantity must be >= 1")
      else
        match _price_for_item (CartItem.sku it) (CartItem.kind it) with
        | Raise e => Raise e
        | Ok (label, up, mo) =>
            let up_total := fmul_int F up (CartItem.qty it) in
            let mo_total := fmul_int F mo (CartItem.qty it) in
            quote_loop rest (fadd F upfront up_total) (fadd F monthly mo_total)
              (line_summaries ++
               [LineSummary.mk (label ++ " ×" ++ pretty (CartItem.qty it))
                  (_round2 up_total)])%list
        end
  end.

Definition quote (self : t F) (items : list CartItem.t)
    (shipping_option_index : Z) : result (Quote.t F) :=
  match items with
  | [] => Raise (ValueError "Cart is empty")
  | _ :: _ =>
      if negb ((0 <=? shipping_option_index) &&
               (shipping_option_index <? Z.of_nat (length (shipping_options self))))
      then Raise (ValueError "Invalid shipping option")
      else
        match quote_loop items (fzero F) (fzero F) [] with
        | Raise e => Raise e
        | Ok (upfront, monthly, line_summaries) =>
            match shipping_options self !! Z.to_nat shipping_option_index with
            | None =>
                (* out of reach: the index has been checked *)
                Raise (ValueError "Invalid shipping option")
            | Some ship =>
                let shipping_cost := ShippingOption.calculate_cost ship in
                let taxable :=
                  fadd F upfront
                    (if tax_on_shipping self then shipping_cost else fzero F) in
                let tax := fmul F taxable (tax_rate self) in
                let grand := fadd F (fadd F upfront shipping_cost) tax in
                Ok (Quote.mk (currency self) line_summaries
                      (LineSummary.mk (ShippingOption.name ship)
                         (_round2 shipping_cost))
                      (LineSummary.mk
                         ("Tax (" ++
                          pretty (ftrunc F (fmul_int F (tax_rate self) 100)) ++ "%)")
                         (_round2 tax))
                      (_round2 monthly) (_round2 grand))
            end
        end
  end.

End WithPrices.
End CheckoutService.

(** An item that [quote] accepts: a quantity of at least 1 and a SKU and
    kind that [_price_for_item] prices. *)
Definition item_ok (F : float_ops) (CATALOG PLANS : gmap string (string * F))
    (it : CartItem.t) : Prop :=
  1 <= CartItem.qty it /\
  exists r, CheckoutService._price_for_item F CATALOG PLANS
              (CartItem.sku it) (CartItem.kind it) = Ok r.

(** The label of the line of an item: the label of its price, the sign
    of multiplication and the quantity. *)
Definition line_label (F : float_ops) (CATALOG PLANS : gmap string (string * F))
    (it : CartItem.t) : string :=
  match CheckoutService._price_for_item F CATALOG PLANS
          (CartItem.sku it) (CartItem.kind it) with
  | Ok (label, _, _) => label ++ " ×" ++ pretty (CartItem.qty it)
  | Raise _ => EmptyString
  end.

Definition sample_checkout : CheckoutService.t Q :=
  CheckoutService.mk
    [ShippingOption.mk "Standard" (5 # 1); ShippingOption.mk "Express" (15 # 1)]
    "EUR" (8 # 100) true.

(** * Properties *)

(** ** The catalog as a [dict] *)

Section DictFacts.
Context {V : Type}.
Implicit Types (d : list (string * V)) (k : string) (v : V).

Lemma dict_get_set k k' v d :
  dict_get k (dict_set k' v d)
  = if String.eqb k' k then Some v else dict_get k d.
Proof.
  induction d as [|[k0 v0] d IH]; simpl.
  - destruct (String.eqb_spec k' k); reflexivity.
  - destruct (String.eqb_spec k0 k') as [->|Hne]; simpl.
    + destruct (String.eqb_spec k' k); reflexivity.
    + rewrite IH. destruct (String.eqb_spec k0 k) as [->|]; [|reflexivity].
      destruct (String.eqb_spec k' k); congruence.
Qed.

Lemma dict_get_None k d : dict_get k d = None <-> ~ In k (dict_keys d).
Proof.
  induction d as [|[k0 v0] d IH]; simpl; [tauto|].
  destruct (String.eqb_spec k0 k) as [->|Hne]; [split; [discriminate|tauto]|].
  rewrite IH. tauto.
Qed.

Lemma dict_keys_set k v d :
  dict_keys (dict_set k v d)
  = if dict_contains k d then dict_keys d else (dict_keys d ++ [k])%list.
Proof.
  unfold dict_contains. induction d as [|[k0 v0] d IH]; simpl; [reflexivity|].
  destruct (String.eqb_spec k0 k) as [->|Hne]; simpl; [reflexivity|].
  rewrite IH. destruct (dict_get k d); reflexivity.
Qed.

Lemma dict_set_NoDup k v d :
  List.NoDup (dict_keys d) -> List.NoDup (dict_keys (dict_set k v d)).
Proof.
  intros Hd. rewrite dict_keys_set. unfold dict_contains.
  destruct (dict_get k d) eqn:E; [assumption|].
  apply dict_get_None in E.
  apply NoDup_ListNoDup, NoDup_app. apply NoDup_ListNoDup in Hd.
  split; [assumption|]. split; [|apply NoDup_singleton].
  intros x Hx Hk. apply list_elem_of_In in Hx.
  apply list_elem_of_singleton in Hk. subst. contradiction.
Qed.

Lemma dict_del_keys_incl k k' d :
  In k (dict_keys (dict_del k' d)) -> In k (dict_keys d).
Proof.
  induction d as [|[k0 v0] d IH]; simpl; [tauto|].
  destruct (String.eqb_spec k0 k'); simpl; tauto.
Qed.

Lemma dict_del_NoDup k d :
  List.NoDup (dict_keys d) -> List.NoDup (dict_keys (dict_del k d)).
Proof.
  induction d as [|[k0 v0] d IH]; simpl; [trivial|].
  intros Hd. inversion Hd as [|? ? Hk0 Hd']; subst.
  destruct (String.eqb_spec k0 k); simpl; [assumption|].
  constructor; [|auto]. intros Hin. apply Hk0.
  eapply dict_del_keys_incl, Hin.
Qed.

Lemma dict_get_del k k' d :
  List.NoDup (dict_keys d) ->
  dict_get k (dict_del k' d)
  = if String.eqb k' k then None else dict_get k d.
Proof.
  induction d as [|[k0 v0] d IH]; simpl; intros Hd.
  - destruct (String.eqb k' k); reflexivity.
  - inversion Hd as [|? ? Hk0 Hd']; subst.
    destruct (String.eqb_spec k0 k') as [->|Hne]; simpl.
    + destruct (String.eqb_spec k' k) as [->|]; [|reflexivity].
      apply dict_get_None. assumption.
    + rewrite IH by assumption.
      destruct (String.eqb_spec k0 k) as [->|]; [|reflexivity].
      destruct (String.eqb_spec k' k); congruence.
Qed.
End DictFacts.

(** ** Writes and lookups *)

Lemma upsert_loop_written items : forall c n,
  fst (ProductService.upsert_loop items c n)
  = upsert_all (upsert_written items) c.
Proof.
  induction items as [|it rest IH]; intros c n; simpl; [reflexivity|].
  destruct (payload_kind it) as [k|]; [|apply IH].
  destruct (model_validate k it) as [prod|]; simpl; [apply IH|reflexivity].
Qed.

Lemma upsert_all_NoDup ps : forall c,
  List.NoDup (dict_keys c) -> List.NoDup (dict_keys (upsert_all ps c)).
Proof.
  induction ps as [|p ps IH]; intros c Hc; simpl; [assumption|].
  apply IH, dict_set_NoDup, Hc.
Qed.

Lemma upsert_all_latest ps : forall (c : catalog) old k,
  dict_get k c = latest k old ->
  dict_get k (upsert_all ps c) = latest k (rev (written_events ps) ++ old)%list.
Proof.
  induction ps as [|p ps IH]; intros c old k Hc; simpl; [assumption|].
  rewrite <- app_assoc. simpl. apply IH. simpl.
  rewrite dict_get_set, Hc. reflexivity.
Qed.

Lemma init_upsert_all seed : ProductService.init seed = upsert_all seed [].
Proof. reflexivity. Qed.

(** One call keeps the keys distinct and agrees with the events it reports. *)
Lemma run_op_latest o (c : catalog) old :
  List.NoDup (dict_keys c) ->
  (forall k, dict_get k c = latest k old) ->
  List.NoDup (dict_keys (fst (run_op o c))) /\
  forall k, dict_get k (fst (run_op o c))
            = latest k (rev (snd (run_op o c)) ++ old)%list.
Proof.
  intros Hnd Hc. destruct o as [pl|k0 u|items|k0]; simpl.
  - unfold ProductService.create.
    destruct (payload_kind pl) as [kd|]; simpl; [|auto].
    destruct (model_validate kd pl) as [prod|]; simpl; [|auto].
    destruct (dict_contains (sku prod) c); simpl; [auto|].
    split; [apply dict_set_NoDup, Hnd|].
    intros k. rewrite dict_get_set, Hc. reflexivity.
  - unfold ProductService.update.
    destruct (dict_get k0 c) as [existing|]; simpl; [|auto].
    destruct (payload_kind _) as [kd|]; simpl; [|auto].
    destruct (model_validate kd _) as [prod|]; simpl; [|auto].
    split; [apply dict_set_NoDup, Hnd|].
    intros k. rewrite dict_get_set, Hc. reflexivity.
  - unfold ProductService.upsert_many. rewrite upsert_loop_written.
    split; [apply upsert_all_NoDup, Hnd|].
    intros k. apply upsert_all_latest, Hc.
  - unfold ProductService.delete.
    destruct (dict_contains k0 c); simpl; [|auto].
    split; [apply dict_del_NoDup, Hnd|].
    intros k. rewrite dict_get_del, Hc by assumption. reflexivity.
Qed.

Lemma run_latest ops : forall (c : catalog) old,
  List.NoDup (dict_keys c) ->
  (forall k, dict_get k c = latest k old) ->
  forall k, dict_get k (fst (run ops c))
            = latest k (rev (snd (run ops c)) ++ old)%list.
Proof.
  induction ops as [|o ops IH]; intros c old Hnd Hc k; simpl; [apply Hc|].
  destruct (run_op_latest o c old Hnd Hc) as [Hnd1 Hc1].
  destruct (run_op o c) as [c1 ev1]. simpl in *.
  specialize (IH c1 (rev ev1 ++ old)%list Hnd1 Hc1 k).
  destruct (run ops c1) as [c2 ev2]. simpl in *.
  rewrite rev_app_distr, <- app_assoc. exact IH.
Qed.

(** C6: after any sequence of create, update, upsert_many and delete calls
    on a seeded catalog, [get(sku)] returns the record most recently written
    under that SKU, and raises [KeyError] when the SKU was deleted since or
    never written; the answer does not look at the active flag, so an
    inactive record is returned like any other. *)
Theorem get_most_recent_write (seed : list Product) (ops : list op) (k : string) :
  let c := fst (run ops (ProductService.init seed)) in
  let history := (written_events seed ++ snd (run ops (ProductService.init seed)))%list in
  ProductService.get c k
  = match most_recent k history with
    | Some p => Ok p
    | None => Raise (KeyError "Product not found")
    end
  /\ (forall p, most_recent k history = Some p -> active p = false ->
        ProductService.get c k = Ok p).
Proof.
  intros c history.
  assert (Hget : dict_get k c = most_recent k history).
  { unfold c, history, most_recent. rewrite rev_app_distr.
    apply run_latest.
    - rewrite init_upsert_all. apply upsert_all_NoDup. constructor.
    - intros k'. rewrite init_upsert_all.
      rewrite <- (app_nil_r (rev (written_events seed))).
      apply upsert_all_latest. reflexivity. }
  unfold ProductService.get. rewrite Hget. split.
  - destruct (most_recent k history); reflexivity.
  - intros p -> _. reflexivity.
Qed.

(** ** The stable sort *)

Section SortFacts.
Context {A K : Type} (ltb : K -> K -> bool) (key : A -> K).

Lemma insert_sorted_Permutation x l :
  Permutation (insert_sorted ltb key x l) (x :: l).
Proof.
  induction l as [|y l IH]; simpl; [reflexivity|].
  destruct (ltb (key y) (key x)); [|reflexivity].
  rewrite IH. apply perm_swap.
Qed.

Lemma stable_sort_Permutation l : Permutation (stable_sort ltb key l) l.
Proof.
  induction l as [|x l IH]; simpl; [reflexivity|].
  rewrite insert_sorted_Permutation. constructor. exact IH.
Qed.

Lemma list_sort_Permutation reverse l :
  Permutation (list_sort ltb key reverse l) l.
Proof.
  destruct reverse; simpl; [|apply stable_sort_Permutation].
  rewrite <- Permutation_rev, stable_sort_Permutation.
  symmetry. apply Permutation_rev.
Qed.

Local Abbreviation ascending := (ascending ltb key).
Local Abbreviation descending := (descending ltb key).
Local Abbreviation tied := (tied ltb key).

Hypothesis ltb_asym : forall a b, ltb a b = true -> ltb b a = false.
Hypothesis ltb_cotrans :
  forall a b c, ltb a c = true -> ltb a b = true \/ ltb b c = true.

Lemma ascending_trans a b c : ascending a b -> ascending b c -> ascending a c.
Proof.
  unfold ascending. intros Hab Hbc.
  destruct (ltb (key c) (key a)) eqn:E; [|reflexivity].
  destruct (ltb_cotrans _ (key b) _ E); congruence.
Qed.

Lemma insert_sorted_sorted x l :
  StronglySorted ascending l ->
  StronglySorted ascending (insert_sorted ltb key x l).
Proof.
  induction 1 as [|y l Hl IH Hy]; simpl; [repeat constructor|].
  destruct (ltb (key y) (key x)) eqn:E.
  - constructor; [exact IH|].
    rewrite insert_sorted_Permutation. constructor; [|exact Hy].
    apply ltb_asym, E.
  - constructor; [constructor; assumption|].
    constructor; [exact E|].
    eapply Forall_impl; [exact Hy|].
    intros z Hz. eapply ascending_trans; [exact E|exact Hz].
Qed.

Lemma stable_sort_sorted l : StronglySorted ascending (stable_sort ltb key l).
Proof.
  induction l as [|x l IH]; simpl; [constructor|].
  apply insert_sorted_sorted, IH.
Qed.

Lemma StronglySorted_rev (R : A -> A -> Prop) l :
  StronglySorted R l -> StronglySorted (flip R) (rev l).
Proof.
  induction 1 as [|x l Hl IH Hx]; simpl; [constructor|].
  apply StronglySorted_app_2; [|exact IH|repeat constructor].
  intros a b Ha Hb. apply list_elem_of_singleton in Hb as ->.
  apply list_elem_of_In, in_rev in Ha.
  rewrite List.Forall_forall in Hx. apply Hx, Ha.
Qed.

Lemma list_sort_sorted (reverse : bool) l :
  StronglySorted (if reverse then descending else ascending)
    (list_sort ltb key reverse l).
Proof.
  destruct reverse; simpl; [|apply stable_sort_sorted].
  apply (StronglySorted_rev ascending), stable_sort_sorted.
Qed.

(** Inserting never carries an element past one of the same class. *)
Lemma insert_sorted_stable k x l :
  List.filter (tied k) (insert_sorted ltb key x l)
  = List.filter (tied k) (x :: l).
Proof.
  induction l as [|y l IH]; [reflexivity|].
  cbn [insert_sorted]. destruct (ltb (key y) (key x)) eqn:E; [|reflexivity].
  cbn [List.filter] in *. rewrite IH.
  destruct (tied k x) eqn:Ex; [|reflexivity].
  destruct (tied k y) eqn:Ey; [|reflexivity].
  exfalso. unfold tied in Ex, Ey.
  apply andb_prop in Ex as [Ex1 Ex2]. apply andb_prop in Ey as [Ey1 Ey2].
  apply negb_true_iff in Ex1, Ex2, Ey1, Ey2.
  destruct (ltb_cotrans _ k _ E); congruence.
Qed.

Lemma stable_sort_stable k l :
  List.filter (tied k) (stable_sort ltb key l) = List.filter (tied k) l.
Proof.
  induction l as [|x l IH]; [reflexivity|].
  cbn [stable_sort foldr]. rewrite insert_sorted_stable.
  cbn [List.filter]. fold (stable_sort ltb key l). rewrite IH. reflexivity.
Qed.

Lemma list_sort_stable reverse k l :
  List.filter (tied k) (list_sort ltb key reverse l) = List.filter (tied k) l.
Proof.
  destruct reverse; simpl; [|apply stable_sort_stable].
  rewrite List.filter_rev, stable_sort_stable, List.filter_rev.
  apply rev_involutive.
Qed.

Lemma tied_refl x : tied (key x) x = true.
Proof.
  unfold tied. destruct (ltb (key x) (key x)) eqn:E; [|reflexivity].
  pose proof (ltb_asym _ _ E). congruence.
Qed.

Lemma tied_head_In k x l l' :
  List.filter (tied k) l = x :: l' -> In x l.
Proof.
  intros H. assert (Hx : In x (List.filter (tied k) l))
    by (rewrite H; left; reflexivity).
  apply List.filter_In in Hx. tauto.
Qed.

(** Sorted order and stability leave one result only: whichever stable
    algorithm [list.sort] runs, it returns what [stable_sort] returns. *)
Lemma sorted_stable_unique l1 : forall l2,
  StronglySorted ascending l1 -> StronglySorted ascending l2 ->
  (forall k, List.filter (tied k) l1 = List.filter (tied k) l2) ->
  l1 = l2.
Proof.
  induction l1 as [|x l1 IH]; intros l2 H1 H2 Hcls.
  - destruct l2 as [|y l2]; [reflexivity|].
    specialize (Hcls (key y)). cbn [List.filter] in Hcls.
    rewrite tied_refl in Hcls. discriminate.
  - destruct l2 as [|y l2].
    { specialize (Hcls (key x)). cbn [List.filter] in Hcls.
      rewrite tied_refl in Hcls. discriminate. }
    apply StronglySorted_inv in H1 as [H1 Hx], H2 as [H2 Hy].
    rewrite List.Forall_forall in Hx, Hy.
    assert (x = y) as <-.
    { pose proof (Hcls (key x)) as Ex. pose proof (Hcls (key y)) as Ey.
      cbn [List.filter] in Ex, Ey. rewrite tied_refl in Ex, Ey.
      destruct (tied (key x) y) eqn:Exy; [congruence|].
      destruct (tied (key y) x) eqn:Eyx; [congruence|].
      symmetry in Ex. apply tied_head_In, Hy in Ex.
      apply tied_head_In, Hx in Ey.
      unfold tied in Exy. unfold ascending in Ex, Ey.
      rewrite Ex, Ey in Exy. discriminate. }
    f_equal. apply IH; [assumption..|].
    intros k. specialize (Hcls k). cbn [List.filter] in Hcls.
    destruct (tied k x); congruence.
Qed.

Lemma stable_sort_unique l l' :
  StronglySorted ascending l' ->
  (forall k, List.filter (tied k) l' = List.filter (tied k) l) ->
  l' = stable_sort ltb key l.
Proof.
  intros Hs Hcls. apply sorted_stable_unique; [exact Hs|apply stable_sort_sorted|].
  intros k. rewrite stable_sort_stable. apply Hcls.
Qed.
End SortFacts.

(** ** The order of sort keys *)

Lemma String_ltb_lt s t : String.ltb s t = true <-> String.compare s t = Lt.
Proof. unfold String.ltb. destruct (String.compare s t); split; congruence. Qed.

Lemma String_compare_cotrans a : forall b c,
  String.compare a c = Lt ->
  String.compare a b = Lt \/ String.compare b c = Lt.
Proof.
  induction a as [|x a IH]; intros [|y b] [|z c]; simpl; auto; try discriminate.
  unfold Ascii.compare.
  destruct (N.compare_spec (N_of_ascii x) (N_of_ascii z)) as [Hxz|Hxz|Hxz];
    try discriminate; intros Hac;
    destruct (N.compare_spec (N_of_ascii x) (N_of_ascii y)) as [Hxy|Hxy|Hxy];
    auto.
  - destruct (N.compare_spec (N_of_ascii y) (N_of_ascii z)); try lia. auto.
  - right. destruct (N.compare_spec (N_of_ascii y) (N_of_ascii z)); try lia.
    reflexivity.
  - right. destruct (N.compare_spec (N_of_ascii y) (N_of_ascii z)); try lia.
    reflexivity.
  - right. destruct (N.compare_spec (N_of_ascii y) (N_of_ascii z)); try lia.
    reflexivity.
Qed.

Lemma String_ltb_asym s t : String.ltb s t = true -> String.ltb t s = false.
Proof.
  rewrite String_ltb_lt. intros H. unfold String.ltb.
  rewrite String.compare_antisym, H. reflexivity.
Qed.

Lemma String_ltb_cotrans a b c :
  String.ltb a c = true -> String.ltb a b = true \/ String.ltb b c = true.
Proof. rewrite !String_ltb_lt. apply String_compare_cotrans. Qed.

Lemma String_leb_ltb s t : String.leb s t = negb (String.ltb t s).
Proof.
  unfold String.leb, String.ltb. rewrite (String.compare_antisym s t).
  destruct (String.compare t s); reflexivity.
Qed.

Lemma Qltb_lt a b : Qltb a b = true <-> (a < b)%Q.
Proof.
  unfold Qltb. rewrite negb_true_iff, <- not_true_iff_false, Qle_bool_iff.
  split; [apply Qnot_le_lt|apply Qlt_not_le].
Qed.

Lemma Qltb_asym a b : Qltb a b = true -> Qltb b a = false.
Proof.
  rewrite Qltb_lt. intros H. apply not_true_iff_false. rewrite Qltb_lt.
  intros H'. exact (Qlt_irrefl a (Qlt_trans _ _ _ H H')).
Qed.

Lemma Qltb_cotrans a b c :
  Qltb a c = true -> Qltb a b = true \/ Qltb b c = true.
Proof.
  rewrite !Qltb_lt. intros H. destruct (Qlt_le_dec a b) as [|Hba]; [auto|].
  right. eapply Qle_lt_trans; eassumption.
Qed.

Lemma key_ltb_asym a b : key_ltb a b = true -> key_ltb b a = false.
Proof.
  destruct a, b; simpl; try congruence;
    [apply String_ltb_asym|apply Qltb_asym].
Qed.

Lemma key_ltb_cotrans a b c :
  key_ltb a c = true -> key_ltb a b = true \/ key_ltb b c = true.
Proof.
  destruct a, b, c; simpl; auto; try discriminate;
    [apply String_ltb_cotrans|apply Qltb_cotrans].
Qed.

(** ** Slices and pages *)

Lemma Forall_py_slice {A} (P : A -> Prop) (l : list A) start stop :
  Forall P l -> Forall P (py_slice l start stop).
Proof. intros H. unfold py_slice. apply Forall_take, Forall_drop, H. Qed.

Lemma StronglySorted_py_slice {A} (R : A -> A -> Prop) (l : list A) start stop :
  StronglySorted R l -> StronglySorted R (py_slice l start stop).
Proof.
  intros H. unfold py_slice.
  set (n := Z.to_nat (slice_index _ start)).
  set (m := Z.to_nat _).
  rewrite <- (take_drop n l) in H. apply StronglySorted_app_1_r in H.
  rewrite <- (take_drop m (drop n l)) in H.
  apply StronglySorted_app_1_l in H. exact H.
Qed.

(** A window that starts at a non-negative index. *)
Lemma py_slice_window {A} (l : list A) (s n : nat) :
  py_slice l (Z.of_nat s) (Z.of_nat s + Z.of_nat n) = take n (drop s l).
Proof.
  unfold py_slice, slice_index.
  destruct (Z.ltb_spec (Z.of_nat s) 0) as [|_]; [lia|].
  destruct (Z.ltb_spec (Z.of_nat s + Z.of_nat n) 0) as [|_]; [lia|].
  destruct (Nat.le_gt_cases (length l) s) as [Hge|Hlt].
  - rewrite !(drop_ge l) by lia. destruct n; destruct (Z.to_nat _); reflexivity.
  - replace (Z.to_nat (Z.of_nat s `min` Z.of_nat (length l))) with s by lia.
    destruct (Nat.le_gt_cases (length l - s) n) as [Hn|Hn].
    + rewrite !take_ge; [reflexivity| |]; rewrite length_drop; lia.
    + f_equal. lia.
Qed.

Lemma concat_windows {A} (l : list A) (n m : nat) :
  concat (map (fun i => take n (drop (i * n) l)) (seq 0 m)) = take (m * n) l.
Proof.
  induction m as [|m IH]; [reflexivity|].
  rewrite seq_S, map_app, concat_app, IH. simpl. rewrite app_nil_r.
  rewrite take_take_drop. f_equal. lia.
Qed.

Lemma page_count_covers total page_size :
  0 < page_size -> total <= page_count total page_size * page_size.
Proof.
  intros Hps. unfold page_count.
  pose proof (Z.div_mod (total + page_size - 1) page_size ltac:(lia)) as Hdm.
  pose proof (Z.mod_pos_bound (total + page_size - 1) page_size Hps). lia.
Qed.

(** ** What [list] computes *)

Section ListFacts.
Variables (c : catalog) (q : option string) (kind_ : option Kind)
  (brand network : option string) (min_upfront max_upfront : option Q).

Local Abbreviation matching :=
  (fun p => _matches p q kind_ brand network min_upfront max_upfront).

Lemma sorted_items_eq (sort : string) :
  ProductService.sorted_items c q kind_ brand network min_upfront max_upfront sort
  = list_sort key_ltb (fun p => _sort_key p (sort_token sort))
      (String.prefix "-" sort) (List.filter matching (dict_values c)).
Proof.
  unfold ProductService.sorted_items, sort_token.
  destruct sort as [|ch s']; [reflexivity|].
  change (String.eqb (String ch s') EmptyString) with false. cbv iota.
  destruct (String.prefix "-" (String ch s')) eqn:E; [|reflexivity].
  apply String.prefix_correct in E. cbn [String.length substring] in E.
  injection E as -> _. reflexivity.
Qed.

Lemma sorted_items_Permutation (sort : string) :
  Permutation
    (ProductService.sorted_items c q kind_ brand network min_upfront max_upfront sort)
    (List.filter matching (dict_values c)).
Proof. rewrite sorted_items_eq. apply list_sort_Permutation. Qed.

Lemma sorted_items_In (sort : string) (p : Product) :
  In p (ProductService.sorted_items c q kind_ brand network min_upfront max_upfront sort)
  <-> In p (dict_values c) /\ matching p = true.
Proof.
  rewrite <- List.filter_In. split; apply Permutation_in;
    [|symmetry]; apply sorted_items_Permutation.
Qed.

Lemma sorted_items_matching (sort : string) :
  Forall (fun p => matching p = true)
    (ProductService.sorted_items c q kind_ brand network min_upfront max_upfront sort).
Proof.
  apply List.Forall_forall. intros p Hp. apply sorted_items_In in Hp. tauto.
Qed.
End ListFacts.

Lemma _matches_active p q kind_ brand network min_upfront max_upfront :
  _matches p q kind_ brand network min_upfront max_upfront = true ->
  active p = true.
Proof. unfold _matches. destruct (active p); [reflexivity|discriminate]. Qed.

(** C7: whatever the filters, the sort token and the page, every item that
    [list] returns is active. *)
Theorem list_only_active (c : catalog) (q : option string) (kind_ : option Kind)
    (brand network : option string) (min_upfront max_upfront : option Q)
    (sort : string) (page page_size : Z) :
  Forall (fun p => active p = true)
    (fst (ProductService.list_ c q kind_ brand network min_upfront max_upfront
            sort page page_size)).
Proof.
  apply Forall_py_slice.
  eapply Forall_impl; [apply sorted_items_matching|].
  intros p. apply _matches_active.
Qed.

(** A page of [list] from page 1 on is a window of the sorted items. *)
Lemma list_page_window (c : catalog) q kind_ brand network min_upfront max_upfront
    (sort : string) (k n : nat) :
  fst (ProductService.list_ c q kind_ brand network min_upfront max_upfront sort
         (Z.of_nat (S k)) (Z.of_nat n))
  = take n (drop (k * n)
      (ProductService.sorted_items c q kind_ brand network min_upfront max_upfront sort)).
Proof.
  unfold ProductService.list_. cbn [fst].
  replace (0 `max` ((Z.of_nat (S k) - 1) * Z.of_nat n)) with (Z.of_nat (k * n))
    by lia.
  apply py_slice_window.
Qed.

(** C10: with a positive page size, a page number of zero or below gives
    the items and the total of page 1. *)
Theorem list_page_clamped (c : catalog) (q : option string) (kind_ : option Kind)
    (brand network : option string) (min_upfront max_upfront : option Q)
    (sort : string) (page page_size : Z) :
  0 < page_size -> page <= 0 ->
  ProductService.list_ c q kind_ brand network min_upfront max_upfront sort
    page page_size
  = ProductService.list_ c q kind_ brand network min_upfront max_upfront sort
      1 page_size.
Proof.
  intros Hps Hpage. unfold ProductService.list_.
  replace (0 `max` ((page - 1) * page_size)) with 0 by nia.
  replace (0 `max` ((1 - 1) * page_size)) with 0 by lia.
  reflexivity.
Qed.

Lemma list_page_clamped_witness :
  ProductService.list_ (ProductService.init [p1; s1])
    None None None None None None "name" (-3) 1
  = ProductService.list_ (ProductService.init [p1; s1])
      None None None None None None "name" 1 1.
Proof. apply list_page_clamped; lia. Defined.

(** C9: for a positive page size, the pages 1 to ceil(total / page_size)
    put end to end are the filtered and sorted items, each once and in
    order; a page after the last one is empty; and the total of every page
    is the number of records that match the filters. *)
Theorem list_pages_partition (c : catalog) (q : option string) (kind_ : option Kind)
    (brand network : option string) (min_upfront max_upfront : option Q)
    (sort : string) (page_size : Z) :
  0 < page_size ->
  let all :=
    ProductService.sorted_items c q kind_ brand network min_upfront max_upfront sort in
  let page_items page :=
    fst (ProductService.list_ c q kind_ brand network min_upfront max_upfront sort
           page page_size) in
  let total page :=
    snd (ProductService.list_ c q kind_ brand network min_upfront max_upfront sort
           page page_size) in
  let pages := page_count (Z.of_nat (length all)) page_size in
  concat (map page_items (seqZ 1 pages)) = all
  /\ (forall page, pages < page -> page_items page = [])
  /\ (forall page,
        total page
        = Z.of_nat (length (List.filter
            (fun p => _matches p q kind_ brand network min_upfront max_upfront)
            (dict_values c)))).
Proof.
  intros Hps all page_items total pages.
  pose proof (page_count_covers (Z.of_nat (length all)) page_size Hps) as Hcov.
  fold pages in Hcov.
  assert (Hn : page_size = Z.of_nat (Z.to_nat page_size)) by lia.
  split; [|split].
  - unfold seqZ. rewrite <- list_fmap_compose.
    rewrite (map_ext _ (fun i => take (Z.to_nat page_size)
                                   (drop (i * Z.to_nat page_size) all))).
    + rewrite concat_windows. apply take_ge. nia.
    + intros i. unfold compose, page_items.
      replace (Z.of_nat i + 1) with (Z.of_nat (S i)) by lia.
      rewrite Hn at 1. apply list_page_window.
  - intros page Hpage. unfold page_items, ProductService.list_. cbn [fst].
    fold all. unfold py_slice, slice_index.
    set (start := 0 `max` ((page - 1) * page_size)).
    assert (Z.of_nat (length all) <= start) by nia.
    destruct (Z.ltb_spec start 0); [lia|].
    rewrite drop_ge by lia. apply take_nil.
  - intros page. unfold total, ProductService.list_. cbn [snd].
    f_equal. apply Permutation_length, sorted_items_Permutation.
Qed.

Lemma list_pages_partition_witness :
  concat (map (fun page =>
      fst (ProductService.list_ (ProductService.init [p1; s1])
             None None None None None None "name" page 1))
    (seqZ 1 (page_count 2 1)))
  = [p1; s1].
Proof.
  exact (proj1 (list_pages_partition (ProductService.init [p1; s1])
                  None None None None None None "name" 1 ltac:(lia))).
Defined.

(** ** Sort order *)

Lemma StronglySorted_impl {A} (R S : A -> A -> Prop) (l : list A) :
  (forall a b, R a b -> S a b) -> StronglySorted R l -> StronglySorted S l.
Proof.
  intros HRS. induction 1 as [|x l Hl IH Hx]; constructor; [exact IH|].
  eapply Forall_impl; [exact Hx|]. intros y. apply HRS.
Qed.

(** A token outside [Sortable] sorts by lowercased name. *)
Lemma _sort_key_unrecognized (p : Product) (sort : string) :
  recognized sort = false ->
  _sort_key p (sort_token sort) = KStr (lower (name p)).
Proof.
  unfold recognized, sort_token. intros H.
  repeat (apply orb_false_iff in H as [H ?]).
  destruct (String.eqb sort EmptyString); [reflexivity|].
  unfold _sort_key. repeat match goal with E : _ = false |- _ => rewrite E; clear E end.
  reflexivity.
Qed.

Lemma ascending_name_le (sort : string) (a b : Product) :
  recognized sort = false ->
  ascending key_ltb (fun p => _sort_key p (sort_token sort)) a b -> name_le a b.
Proof.
  intros Hs. unfold ascending, name_le.
  rewrite !_sort_key_unrecognized by assumption. simpl.
  rewrite String_leb_ltb. intros ->. reflexivity.
Qed.

(** C8, as the code has it: a sort token outside the six recognized ones
    orders the result by lowercased name, ascending when the token does not
    start with '-' and descending when it does; and for every sort token,
    recognized or not, records with equal sort keys keep the order in which
    the catalog iterates over them. *)
Theorem list_sort_order (c : catalog) (q : option string) (kind_ : option Kind)
    (brand network : option string) (min_upfront max_upfront : option Q)
    (sort : string) (page page_size : Z) :
  let items :=
    ProductService.sorted_items c q kind_ brand network min_upfront max_upfront sort in
  let page_items :=
    fst (ProductService.list_ c q kind_ brand network min_upfront max_upfront sort
           page page_size) in
  (recognized sort = false -> String.prefix "-" sort = false ->
     StronglySorted name_le items /\ StronglySorted name_le page_items)
  /\ (recognized sort = false -> String.prefix "-" sort = true ->
        StronglySorted name_ge items /\ StronglySorted name_ge page_items)
  /\ (forall k : sort_key,
        List.filter (fun p => key_tie k (_sort_key p (sort_token sort))) items
        = List.filter (fun p => key_tie k (_sort_key p (sort_token sort)))
            (List.filter
               (fun p => _matches p q kind_ brand network min_upfront max_upfront)
               (dict_values c))).
Proof.
  intros items page_items.
  pose proof (list_sort_sorted key_ltb (fun p => _sort_key p (sort_token sort))
                key_ltb_asym key_ltb_cotrans (String.prefix "-" sort)
                (List.filter
                   (fun p => _matches p q kind_ brand network min_upfront max_upfront)
                   (dict_values c))) as Hsorted.
  rewrite <- sorted_items_eq in Hsorted. fold items in Hsorted.
  split; [|split].
  - intros Hrec Hasc. rewrite Hasc in Hsorted.
    assert (StronglySorted name_le items) as Hitems.
    { eapply StronglySorted_impl; [|exact Hsorted].
      intros a b. apply ascending_name_le, Hrec. }
    split; [exact Hitems|]. apply StronglySorted_py_slice, Hitems.
  - intros Hrec Hdesc. rewrite Hdesc in Hsorted.
    assert (StronglySorted name_ge items) as Hitems.
    { eapply StronglySorted_impl; [|exact Hsorted].
      intros a b. apply ascending_name_le, Hrec. }
    split; [exact Hitems|]. apply StronglySorted_py_slice, Hitems.
  - intros k. unfold items. rewrite sorted_items_eq.
    apply (list_sort_stable key_ltb (fun p => _sort_key p (sort_token sort))
             key_ltb_cotrans).
Qed.

(** ** Filters of one variant *)

Lemma In_py_slice {A} (x : A) (l : list A) start stop :
  In x (py_slice l start stop) -> In x l.
Proof.
  intros Hx. assert (H : Forall (fun y => In y l) l)
    by (apply List.Forall_forall; auto).
  apply (Forall_py_slice _ _ start stop) in H.
  rewrite List.Forall_forall in H. apply H, Hx.
Qed.

Lemma list_items_matching (c : catalog) q kind_ brand network min_upfront max_upfront
    (sort : string) (page page_size : Z) (p : Product) :
  In p (fst (ProductService.list_ c q kind_ brand network min_upfront max_upfront
               sort page page_size)) ->
  In p (dict_values c) /\
  _matches p q kind_ brand network min_upfront max_upfront = true.
Proof. intros Hp. apply In_py_slice in Hp. eapply sorted_items_In, Hp. Qed.

Lemma _matches_plan_network (pl : PlanProduct.t) q kind_ brand network lo hi :
  _matches (Plan pl) q kind_ brand network lo hi
  = negb (truthy network && truthy (PlanProduct.network pl) &&
          negb (String.eqb (lower (or_empty (PlanProduct.network pl)))
                           (lower (or_empty network))))
    && _matches (Plan pl) q kind_ brand None lo hi.
Proof.
  unfold _matches. cbn [truthy andb].
  destruct (negb (active (Plan pl))); [symmetry; apply andb_false_r|].
  destruct (match kind_ with Some k => _ | None => _ end);
    [symmetry; apply andb_false_r|].
  destruct (truthy network && _ && _); reflexivity.
Qed.

(** C3, as the code has it: when the network filter is set, a plan record
    with no network value (None or empty) is not held back by it and is in
    the results exactly when it is without the network filter; a plan
    record that has a network value is in the results only if that value
    equals the filter, letter case aside, and then matches exactly when it
    does without the network filter. *)
Theorem network_filter_on_plans (c : catalog) (q : option string)
    (kind_ : option Kind) (brand network : option string)
    (min_upfront max_upfront : option Q) (sort : string) (pl : PlanProduct.t) :
  truthy network = true ->
  (truthy (PlanProduct.network pl) = false ->
     _matches (Plan pl) q kind_ brand network min_upfront max_upfront
     = _matches (Plan pl) q kind_ brand None min_upfront max_upfront
     /\ (In (Plan pl)
           (ProductService.sorted_items c q kind_ brand network
              min_upfront max_upfront sort)
         <-> In (Plan pl)
               (ProductService.sorted_items c q kind_ brand None
                  min_upfront max_upfront sort)))
  /\ (truthy (PlanProduct.network pl) = true ->
        _matches (Plan pl) q kind_ brand network min_upfront max_upfront
        = String.eqb (lower (or_empty (PlanProduct.network pl)))
                     (lower (or_empty network))
          && _matches (Plan pl) q kind_ brand None min_upfront max_upfront
        /\ forall page page_size,
             In (Plan pl)
               (fst (ProductService.list_ c q kind_ brand network
                       min_upfront max_upfront sort page page_size)) ->
             lower (or_empty (PlanProduct.network pl)) = lower (or_empty network)).
Proof.
  intros Hnw. split; intros Hrec.
  - assert (Heq : _matches (Plan pl) q kind_ brand network min_upfront max_upfront
                  = _matches (Plan pl) q kind_ brand None min_upfront max_upfront).
    { rewrite _matches_plan_network, Hnw, Hrec. reflexivity. }
    split; [exact Heq|]. rewrite !sorted_items_In, Heq. reflexivity.
  - assert (Heq : _matches (Plan pl) q kind_ brand network min_upfront max_upfront
                  = String.eqb (lower (or_empty (PlanProduct.network pl)))
                               (lower (or_empty network))
                    && _matches (Plan pl) q kind_ brand None min_upfront max_upfront).
    { rewrite _matches_plan_network, Hnw, Hrec. cbn [andb].
      rewrite negb_involutive. reflexivity. }
    split; [exact Heq|]. intros page page_size Hin.
    apply list_items_matching in Hin as [_ Hm]. rewrite Heq in Hm.
    apply andb_prop in Hm as [Hm _]. apply String.eqb_eq, Hm.
Qed.

Lemma _matches_plan_phone_filters (pl : PlanProduct.t) q kind_ brand network lo hi :
  _matches (Plan pl) q kind_ brand network lo hi
  = _matches (Plan pl) q kind_ None network None None.
Proof. reflexivity. Qed.

Lemma Qltb_false_le a b : Qltb a b = false <-> (b <= a)%Q.
Proof. unfold Qltb. rewrite negb_false_iff. apply Qle_bool_iff. Qed.

(** C4, as the code has it: the brand filter and the upfront price bounds
    are applied to phone records only. A phone in the results has the
    brand of the filter, letter case aside, and a price within the bounds,
    both ends included; a plan record is not excluded by these filters and
    is in the results exactly when it is without them. *)
Theorem phone_filters_skip_plans (c : catalog) (q : option string)
    (kind_ : option Kind) (brand network : option string)
    (min_upfront max_upfront : option Q) (sort : string) :
  (forall pl : PlanProduct.t,
     _matches (Plan pl) q kind_ brand network min_upfront max_upfront
     = _matches (Plan pl) q kind_ None network None None
     /\ (In (Plan pl)
           (ProductService.sorted_items c q kind_ brand network
              min_upfront max_upfront sort)
         <-> In (Plan pl)
               (ProductService.sorted_items c q kind_ None network None None sort)))
  /\ (forall (ph : PhoneProduct.t) page page_size,
        In (Phone ph)
          (fst (ProductService.list_ c q kind_ brand network
                  min_upfront max_upfront sort page page_size)) ->
        (truthy brand = true ->
           lower (PhoneProduct.brand ph) = lower (or_empty brand))
        /\ (forall lo, min_upfront = Some lo ->
              (lo <= PhoneProduct.upfront_price ph)%Q)
        /\ (forall hi, max_upfront = Some hi ->
              (PhoneProduct.upfront_price ph <= hi)%Q)).
Proof.
  split.
  - intros pl. split; [apply _matches_plan_phone_filters|].
    rewrite !sorted_items_In, _matches_plan_phone_filters. reflexivity.
  - intros ph page page_size Hin.
    apply list_items_matching in Hin as [_ Hm]. unfold _matches in Hm.
    destruct (negb (active (Phone ph))); [discriminate|].
    destruct (match kind_ with Some k => _ | None => _ end); [discriminate|].
    destruct (_ || _ || _) eqn:E in Hm; [discriminate|].
    apply orb_false_iff in E as [E Ehi]. apply orb_false_iff in E as [Eb Elo].
    split; [|split].
    + intros Hb. rewrite Hb in Eb. cbn [andb] in Eb.
      apply negb_false_iff, String.eqb_eq in Eb. exact Eb.
    + intros lo ->. apply Qltb_false_le, Elo.
    + intros hi ->. apply Qltb_false_le, Ehi.
Qed.

(** ** Failing calls and the stored keys *)

Lemma create_raise_unchanged (payload0 : payload) (c : catalog) (e : exn) :
  snd (ProductService.create payload0 c) = Raise e ->
  fst (ProductService.create payload0 c) = c.
Proof.
  unfold ProductService.create.
  destruct (payload_kind payload0) as [k|]; [|reflexivity].
  destruct (model_validate k payload0) as [prod|]; [|reflexivity].
  destruct (dict_contains (sku prod) c); [reflexivity|discriminate].
Qed.

Lemma update_raise_unchanged (sku0 : string) (updates : payload) (c : catalog)
    (e : exn) :
  snd (ProductService.update sku0 updates c) = Raise e ->
  fst (ProductService.update sku0 updates c) = c.
Proof.
  unfold ProductService.update.
  destruct (dict_get sku0 c) as [existing|]; [|reflexivity].
  destruct (payload_kind _) as [k|]; [|reflexivity].
  destruct (model_validate k _); [discriminate|reflexivity].
Qed.

Lemma delete_raise_unchanged (sku0 : string) (c : catalog) (e : exn) :
  snd (ProductService.delete sku0 c) = Raise e ->
  fst (ProductService.delete sku0 c) = c.
Proof.
  unfold ProductService.delete.
  destruct (negb (dict_contains sku0 c)); [reflexivity|discriminate].
Qed.

(** When every payload of a known kind validates, [upsert_many] writes them
    all and returns how many it wrote; payloads of an unknown kind are
    skipped. *)
Lemma upsert_many_all_valid (items : list payload) (c : catalog) :
  (forall it k, In it items -> payload_kind it = Some k ->
     model_validate k it <> None) ->
  ProductService.upsert_many items c
  = (upsert_all (upsert_written items) c,
     Ok (Z.of_nat (length (upsert_written items)))).
Proof.
  unfold ProductService.upsert_many.
  change 0 with (Z.of_nat 0) at 1.
  assert (forall n c,
    (forall it k, In it items -> payload_kind it = Some k ->
       model_validate k it <> None) ->
    ProductService.upsert_loop items c (Z.of_nat n)
    = (upsert_all (upsert_written items) c,
       Ok (Z.of_nat (n + length (upsert_written items))))) as Hloop.
  { clear c. induction items as [|it rest IH]; intros n c Hvalid; simpl.
    - rewrite Nat.add_0_r. reflexivity.
    - destruct (payload_kind it) as [k|] eqn:Ek.
      + destruct (model_validate k it) as [prod|] eqn:Ev.
        * replace (Z.of_nat n + 1) with (Z.of_nat (S n)) by lia.
          rewrite IH by (intros; eapply Hvalid; eauto using in_cons).
          simpl. do 3 f_equal. lia.
        * exfalso. eapply Hvalid; eauto using in_eq.
      + apply IH. intros; eapply Hvalid; eauto using in_cons. }
  intros Hvalid. apply (Hloop 0%nat c Hvalid).
Qed.

Lemma dict_set_keys_match (k : string) (p : Product) (c : catalog) :
  sku p = k -> keys_match c -> keys_match (dict_set k p c).
Proof.
  intros Hk. unfold keys_match. induction 1 as [|[k0 p0] c H0 Hc IH]; simpl.
  - repeat constructor. exact Hk.
  - destruct (String.eqb_spec k0 k) as [->|].
    + constructor; [exact Hk|exact Hc].
    + constructor; [exact H0|exact IH].
Qed.

Lemma dict_del_keys_match (k : string) (c : catalog) :
  keys_match c -> keys_match (dict_del k c).
Proof.
  unfold keys_match. induction 1 as [|[k0 p0] c H0 Hc IH]; simpl.
  - constructor.
  - destruct (String.eqb k0 k); [exact Hc|constructor; assumption].
Qed.

Lemma upsert_all_keys_match (ps : list Product) : forall c : catalog,
  keys_match c -> keys_match (upsert_all ps c).
Proof.
  induction ps as [|p ps IH]; intros c Hc; simpl; [exact Hc|].
  apply IH, dict_set_keys_match; [reflexivity|exact Hc].
Qed.

Lemma model_validate_sku (k : Kind) (d : payload) (p : Product) :
  model_validate k d = Some p -> get_str d "sku" = Some (sku p).
Proof.
  destruct k; unfold model_validate, PhoneProduct.model_validate,
    PlanProduct.model_validate; intros H; simplify_option_eq; reflexivity.
Qed.

Lemma model_dump_sku (p : Product) : model_dump p !! "sku" = Some (VStr (sku p)).
Proof. destruct p; reflexivity. Qed.

(** The calls that keep every record under its own SKU: the constructor,
    [create], [upsert_many], [delete], and [update] when the partial field
    set has no [sku] entry. *)
Lemma init_keys_match (seed : list Product) : keys_match (ProductService.init seed).
Proof. rewrite init_upsert_all. apply upsert_all_keys_match. constructor. Qed.

Lemma create_keys_match (payload0 : payload) (c : catalog) :
  keys_match c -> keys_match (fst (ProductService.create payload0 c)).
Proof.
  intros Hc. unfold ProductService.create.
  destruct (payload_kind payload0) as [k|]; [|exact Hc].
  destruct (model_validate k payload0) as [prod|]; [|exact Hc].
  destruct (dict_contains (sku prod) c); [exact Hc|].
  apply dict_set_keys_match; [reflexivity|exact Hc].
Qed.

Lemma upsert_many_keys_match (items : list payload) (c : catalog) :
  keys_match c -> keys_match (fst (ProductService.upsert_many items c)).
Proof.
  intros Hc. unfold ProductService.upsert_many.
  rewrite upsert_loop_written. apply upsert_all_keys_match, Hc.
Qed.

Lemma delete_keys_match (sku0 : string) (c : catalog) :
  keys_match c -> keys_match (fst (ProductService.delete sku0 c)).
Proof.
  intros Hc. unfold ProductService.delete.
  destruct (negb (dict_contains sku0 c)); [exact Hc|].
  apply dict_del_keys_match, Hc.
Qed.

Lemma dict_get_keys_match (k : string) (p : Product) (c : catalog) :
  keys_match c -> dict_get k c = Some p -> sku p = k.
Proof.
  unfold keys_match. induction 1 as [|[k0 p0] c H0 Hc IH]; simpl; [discriminate|].
  destruct (String.eqb_spec k0 k) as [->|]; [|exact IH].
  intros [= ->]. exact H0.
Qed.

Lemma update_keys_match (sku0 : string) (updates : payload) (c : catalog) :
  updates !! "sku" = None ->
  keys_match c -> keys_match (fst (ProductService.update sku0 updates c)).
Proof.
  intros Hu Hc. unfold ProductService.update.
  destruct (dict_get sku0 c) as [existing|] eqn:Eg; [|exact Hc].
  destruct (payload_kind _) as [k|]; [|exact Hc].
  destruct (model_validate k _) as [updated|] eqn:Ev; [|exact Hc].
  apply dict_set_keys_match; [|exact Hc].
  apply model_validate_sku in Ev. unfold get_str in Ev.
  rewrite lookup_union_r, model_dump_sku in Ev by exact Hu.
  injection Ev as <-. eapply dict_get_keys_match; eassumption.
Qed.

(** ** Where the code departs from the specification *)

(** C1: a payload of a known kind that fails validation is not skipped.
    [model_validate] raises, the exception leaves [upsert_many], and the
    valid payload after it is never written: no count is returned and
    [get] does not find the valid item. *)
Theorem upsert_many_invalid_shape_aborts :
  ProductService.upsert_many
    [bad_shape_payload; phone_payload "p1" "Alpha" "Acme" (500 # 1) true] []
  = ([], Raise ValidationError)
  /\ ProductService.get
       (fst (ProductService.upsert_many
               [bad_shape_payload; phone_payload "p1" "Alpha" "Acme" (500 # 1) true]
               []))
       "p1"
     = Raise (KeyError "Product not found").
Proof. vm_compute. split; reflexivity. Qed.

(** C2: [update] with a [sku] entry in the partial field set stores, under
    the old key, a record whose SKU field is the new value. *)
Theorem update_sku_breaks_key :
  let c0 := ProductService.init [p1] in
  let c1 := fst (ProductService.update "p1" {["sku" := VStr "p2"]} c0) in
  keys_match c0
  /\ c1 = [("p1", p1_renamed)]
  /\ sku p1_renamed = "p2"
  /\ ~ keys_match c1.
Proof.
  cbv zeta. split; [apply init_keys_match|].
  assert (E : fst (ProductService.update "p1" {["sku" := VStr "p2"]}
                     (ProductService.init [p1])) = [("p1", p1_renamed)])
    by (vm_compute; reflexivity).
  rewrite E. split; [reflexivity|]. split; [reflexivity|].
  intros H. inversion H as [|? ? Hk _]. discriminate Hk.
Qed.

(** C5: [upsert_many] can raise after it has written: the first payload is
    stored, the second one fails validation, and the caller gets the
    exception together with a changed catalog. *)
Theorem upsert_many_partial_then_raises :
  let c0 := ProductService.init [s1] in
  let r := ProductService.upsert_many
             [phone_payload "p1" "Alpha" "Acme" (500 # 1) true;
              phone_payload "p9" "Omega" "Acme" (-1 # 1) true] c0 in
  snd r = Raise ValidationError
  /\ fst r = [("s1", s1); ("p1", p1)]
  /\ fst r <> c0.
Proof. vm_compute. repeat split; try reflexivity. discriminate. Qed.

(** ** Counterexamples to the statements as written *)

(** C3: a plan with no network value is returned although the network
    filter is set. *)
Lemma network_filter_keeps_bare_plan :
  ~ (forall (c : catalog) q kind_ brand network min_upfront max_upfront
       (sort : string) (page page_size : Z) (pl : PlanProduct.t),
       truthy network = true ->
       truthy (PlanProduct.network pl) = false ->
       ~ In (Plan pl)
           (fst (ProductService.list_ c q kind_ brand network
                   min_upfront max_upfront sort page page_size))).
Proof.
  intros H.
  apply (H (ProductService.init [Plan bare_plan]) None None None (Some "NetA")
           None None "name" 1 12 bare_plan); [reflexivity|reflexivity|].
  vm_compute. left. reflexivity.
Qed.

(** C4: a plan record is returned although the brand filter, or a bound on
    the upfront price, is set. *)
Lemma phone_filters_keep_plans :
  ~ (forall (c : catalog) q kind_ brand network min_upfront max_upfront
       (sort : string) (page page_size : Z) (pl : PlanProduct.t),
       truthy brand = true ->
       ~ In (Plan pl)
           (fst (ProductService.list_ c q kind_ brand network
                   min_upfront max_upfront sort page page_size)))
  /\ ~ (forall (c : catalog) q kind_ brand network min_upfront max_upfront
          (sort : string) (page page_size : Z) (pl : PlanProduct.t),
          min_upfront <> None \/ max_upfront <> None ->
          ~ In (Plan pl)
              (fst (ProductService.list_ c q kind_ brand network
                      min_upfront max_upfront sort page page_size))).
Proof.
  split; intros H.
  - apply (H (ProductService.init [p1; s1]) None None (Some "Acme") None
             None None "name" 1 12 basic_plan); [reflexivity|].
    vm_compute. right. left. reflexivity.
  - apply (H (ProductService.init [p1; s1]) None None None None
             (Some (100 # 1)) (Some (900 # 1)) "name" 1 12 basic_plan);
      [left; discriminate|].
    vm_compute. right. left. reflexivity.
Qed.

(** C8: an unrecognized token that starts with '-' gives descending names. *)
Lemma unrecognized_dash_token_descends :
  ~ (forall (c : catalog) q kind_ brand network min_upfront max_upfront
       (sort : string) (page page_size : Z),
       recognized sort = false ->
       StronglySorted name_le
         (fst (ProductService.list_ c q kind_ brand network
                 min_upfront max_upfront sort page page_size))).
Proof.
  intros H.
  specialize (H (ProductService.init [p1; p2]) None None None None None None
                "-price" 1 12 eq_refl).
  assert (E : fst (ProductService.list_ (ProductService.init [p1; p2])
                     None None None None None None "-price" 1 12) = [p2; p1])
    by (vm_compute; reflexivity).
  rewrite E in H. inversion H as [|? ? _ Hfa]. inversion Hfa as [|? ? Hle _].
  vm_compute in Hle. discriminate Hle.
Qed.

(** ** Instances *)

Lemma network_filter_on_plans_witness :
  _matches (Plan bare_plan) None None None (Some "NetA") None None
  = _matches (Plan bare_plan) None None None None None None.
Proof.
  exact (proj1 (proj1 (network_filter_on_plans [] None None None (Some "NetA")
                         None None "name" bare_plan eq_refl) eq_refl)).
Defined.

Lemma phone_filters_skip_plans_witness :
  _matches (Plan basic_plan) None None (Some "Acme") None (Some (100 # 1)) None
  = _matches (Plan basic_plan) None None None None None None.
Proof.
  exact (proj1 (proj1 (phone_filters_skip_plans [] None None (Some "Acme") None
                         (Some (100 # 1)) None "name") basic_plan)).
Defined.

Lemma list_sort_order_witness :
  StronglySorted name_ge
    (ProductService.sorted_items (ProductService.init [p1; p2])
       None None None None None None "-price").
Proof.
  exact (proj1 (proj1 (proj2 (list_sort_order (ProductService.init [p1; p2])
                                None None None None None None "-price" 1 12))
                  eq_refl eq_refl)).
Defined.

Lemma get_most_recent_write_witness :
  ProductService.get
    (fst (run [OpUpdate "p1" {["active" := VBool false]}]
            (ProductService.init [p1; s1])))
    "p1"
  = Ok p1_inactive.
Proof.
  exact (proj2 (get_most_recent_write [p1; s1]
                  [OpUpdate "p1" {["active" := VBool false]}] "p1")
           p1_inactive eq_refl eq_refl).
Defined.

(** ** The scenarios of the specification *)

Example create_p1 :
  ProductService.create (phone_payload "p1" "Alpha" "Acme" (500 # 1) true) []
  = ([("p1", p1)], Ok p1).
Proof. vm_compute. reflexivity. Qed.

Example scenario_list_phone :
  ProductService.list_ (ProductService.init [p1; s1])
    None (Some phone) None None None None "name" 1 12 = ([p1], 1).
Proof. vm_compute. reflexivity. Qed.

Example scenario_deactivate :
  let c := fst (ProductService.update "p1" {["active" := VBool false]}
                  (ProductService.init [p1; s1])) in
  ProductService.list_ c None (Some phone) None None None None "name" 1 12 = ([], 0)
  /\ ProductService.get c "p1" = Ok p1_inactive.
Proof. vm_compute. split; reflexivity. Qed.

Example scenario_duplicate :
  ProductService.create (phone_payload "p1" "Alpha" "Acme" (500 # 1) true)
    (ProductService.init [p1; s1])
  = (ProductService.init [p1; s1], Raise (ValueError "SKU already exists")).
Proof. vm_compute. reflexivity. Qed.

(** A payload of an unknown kind is the one invalid payload that
    [upsert_many] skips. *)
Example upsert_many_unknown_kind_skipped :
  ProductService.upsert_many
    [phone_payload "p1" "Alpha" "Acme" (500 # 1) true; no_kind_payload] []
  = ([("p1", p1)], Ok 1).
Proof. vm_compute. reflexivity. Qed.

Example sort_by_price_plans_last :
  fst (ProductService.list_ (ProductService.init [s1; p1; p2])
         None None None None None None "upfront_price" 1 12)
  = [p2; p1; s1].
Proof. vm_compute. reflexivity. Qed.

Example page_two_of_three :
  ProductService.list_ (ProductService.init [s1; p1; p2])
    None None None None None None "name" 2 2 = ([p2], 3).
Proof. vm_compute. reflexivity. Qed.

(** * Further properties of the catalog *)

(** ** Keys, order and size *)

Lemma dict_set_absent {V} (k : string) (v : V) (d : list (string * V)) :
  dict_get k d = None -> dict_set k v d = (d ++ [(k, v)])%list.
Proof.
  induction d as [|[k0 v0] d IH]; simpl; [reflexivity|].
  destruct (String.eqb k0 k); [discriminate|]. intros H. rewrite IH by exact H.
  reflexivity.
Qed.

Lemma dict_set_present_keys {V} (k : string) (v : V) (d : list (string * V)) :
  dict_get k d <> None -> dict_keys (dict_set k v d) = dict_keys d.
Proof.
  intros H. rewrite dict_keys_set. unfold dict_contains.
  destruct (dict_get k d); [reflexivity|contradiction].
Qed.

Lemma dict_del_snoc {V} (k : string) (v : V) (d : list (string * V)) :
  dict_get k d = None -> dict_del k (d ++ [(k, v)])%list = d.
Proof.
  induction d as [|[k0 v0] d IH]; simpl.
  - rewrite String.eqb_refl. reflexivity.
  - destruct (String.eqb k0 k); [discriminate|]. intros H. rewrite IH by exact H.
    reflexivity.
Qed.

Lemma dict_del_length {V} (k : string) (d : list (string * V)) :
  dict_get k d <> None -> S (length (dict_del k d)) = length d.
Proof.
  induction d as [|[k0 v0] d IH]; simpl; [congruence|].
  destruct (String.eqb k0 k); [reflexivity|]. intros H. simpl. rewrite IH by exact H.
  reflexivity.
Qed.

Lemma create_Ok (payload0 : payload) (c c1 : catalog) (p : Product) :
  ProductService.create payload0 c = (c1, Ok p) ->
  (exists k, payload_kind payload0 = Some k /\ model_validate k payload0 = Some p)
  /\ dict_get (sku p) c = None
  /\ c1 = (c ++ [(sku p, p)])%list.
Proof.
  unfold ProductService.create, dict_contains.
  destruct (payload_kind payload0) as [k|]; [|discriminate].
  destruct (model_validate k payload0) as [prod|] eqn:Ev; [|discriminate].
  destruct (dict_get (sku prod) c) eqn:Eg; [discriminate|].
  intros [= <- <-]. split; [eauto|]. split; [exact Eg|].
  apply dict_set_absent, Eg.
Qed.

(** X1: [count] grows by one with a [create] that returns, shrinks by one
    with a [delete] that returns, and is left alone by [update] and by
    every call that raises. *)
Theorem count_after_calls (c : catalog) (payload0 updates : payload)
    (sku0 : string) :
  ProductService.count (fst (ProductService.create payload0 c))
  = ProductService.count c
    + match snd (ProductService.create payload0 c) with
      | Ok _ => 1
      | Raise _ => 0
      end
  /\ ProductService.count (fst (ProductService.update sku0 updates c))
     = ProductService.count c
  /\ ProductService.count (fst (ProductService.delete sku0 c))
     = ProductService.count c
       - match snd (ProductService.delete sku0 c) with
         | Ok _ => 1
         | Raise _ => 0
         end.
Proof.
  unfold ProductService.count. split; [|split].
  - destruct (ProductService.create payload0 c) as [c1 [p|e]] eqn:E.
    + apply create_Ok in E as (_ & _ & ->). cbn [fst snd].
      rewrite length_app. simpl. lia.
    + apply (f_equal fst) in E as E1. cbn [fst snd] in *.
      rewrite <- E1, (create_raise_unchanged payload0 c e); [lia|].
      rewrite E. reflexivity.
  - unfold ProductService.update.
    destruct (dict_get sku0 c) as [existing|] eqn:Eg; [|reflexivity].
    destruct (payload_kind _) as [k|]; [|reflexivity].
    destruct (model_validate k _) as [updated|]; [|reflexivity].
    cbn [fst]. f_equal. rewrite <- !(length_map fst).
    change (map fst ?d) with (dict_keys d).
    rewrite dict_set_present_keys by congruence. reflexivity.
  - unfold ProductService.delete, dict_contains.
    destruct (dict_get sku0 c) eqn:Eg; cbn [negb fst snd]; [|lia].
    rewrite <- (dict_del_length sku0 c) by congruence. lia.
Qed.

(** X2: a second [create] with a payload that has just been created raises
    "SKU already exists" and changes nothing, while [get] keeps returning
    the record of the first call. *)
Theorem create_twice_raises (payload0 : payload) (c c1 : catalog) (p : Product) :
  ProductService.create payload0 c = (c1, Ok p) ->
  ProductService.create payload0 c1 = (c1, Raise (ValueError "SKU already exists"))
  /\ ProductService.get c1 (sku p) = Ok p.
Proof.
  intros H. apply create_Ok in H as ((k & Ek & Ev) & Eg & ->).
  assert (Hget : dict_get (sku p) (c ++ [(sku p, p)])%list = Some p).
  { rewrite <- (dict_set_absent _ p c Eg), dict_get_set, String.eqb_refl.
    reflexivity. }
  unfold ProductService.create, ProductService.get, dict_contains.
  rewrite Ek, Ev, Hget. split; reflexivity.
Qed.

Lemma create_twice_raises_witness :
  ProductService.create (phone_payload "p1" "Alpha" "Acme" (500 # 1) true)
    [("p1", p1)]
  = ([("p1", p1)], Raise (ValueError "SKU already exists"))
  /\ ProductService.get [("p1", p1)] (sku p1) = Ok p1.
Proof.
  apply (create_twice_raises
           (phone_payload "p1" "Alpha" "Acme" (500 # 1) true) [] [("p1", p1)] p1).
  vm_compute. reflexivity.
Defined.

(** X3: [create] puts the new record last in the order in which the catalog
    iterates, and deleting that record again gives back the catalog as it
    was before the [create]. *)
Theorem create_delete_round_trip (payload0 : payload) (c c1 : catalog)
    (p : Product) :
  ProductService.create payload0 c = (c1, Ok p) ->
  c1 = (c ++ [(sku p, p)])%list
  /\ ProductService.delete (sku p) c1 = (c, Ok tt).
Proof.
  intros H. apply create_Ok in H as (_ & Eg & ->). split; [reflexivity|].
  unfold ProductService.delete, dict_contains.
  rewrite <- (dict_set_absent _ p c Eg) at 1. rewrite dict_get_set, String.eqb_refl.
  cbn [negb]. rewrite dict_del_snoc by exact Eg. reflexivity.
Qed.

Lemma create_delete_round_trip_witness :
  [("s1", s1); ("p1", p1)] = ([("s1", s1)] ++ [(sku p1, p1)])%list
  /\ ProductService.delete (sku p1) [("s1", s1); ("p1", p1)] = ([("s1", s1)], Ok tt).
Proof.
  apply (create_delete_round_trip
           (phone_payload "p1" "Alpha" "Acme" (500 # 1) true) [("s1", s1)]).
  vm_compute. reflexivity.
Defined.

(** X4: [update] never adds, drops or moves a key: the catalog iterates over
    the same SKUs in the same order after it, whether it returns or raises,
    so an updated record keeps its place among the others. *)
Theorem update_keeps_key_order (sku0 : string) (updates : payload) (c : catalog) :
  dict_keys (fst (ProductService.update sku0 updates c)) = dict_keys c.
Proof.
  unfold ProductService.update.
  destruct (dict_get sku0 c) as [existing|] eqn:Eg; [|reflexivity].
  destruct (payload_kind _) as [k|]; [|reflexivity].
  destruct (model_validate k _) as [updated|]; [|reflexivity].
  cbn [fst]. apply dict_set_present_keys. congruence.
Qed.

(** ** Brands and networks *)

Lemma String_ltb_total a b :
  String.ltb a b = false -> String.ltb b a = false -> a = b.
Proof.
  unfold String.ltb. rewrite (String.compare_antisym a b).
  destruct (String.compare b a) eqn:E; simpl; try discriminate.
  intros _ _. symmetry. apply String.compare_eq_iff, E.
Qed.

Lemma str_tied_eq (k a : string) :
  tied String.ltb (fun s => s) k a = true <-> a = k.
Proof.
  unfold tied. split.
  - intros H. apply andb_prop in H as [H1 H2].
    apply negb_true_iff in H1, H2. apply String_ltb_total; assumption.
  - intros ->. destruct (String.ltb k k) eqn:E; [|reflexivity].
    pose proof (String_ltb_asym _ _ E). congruence.
Qed.

Lemma filter_eq_NoDup (f : string -> bool) (k : string) (l : list string) :
  (forall a, f a = true <-> a = k) -> List.NoDup l ->
  List.filter f l = if bool_decide (k ∈ l) then [k] else [].
Proof.
  intros Hf. induction 1 as [|x l Hx Hl IH]; cbn [List.filter].
  - rewrite bool_decide_eq_false_2 by apply not_elem_of_nil. reflexivity.
  - rewrite <- list_elem_of_In in Hx. destruct (f x) eqn:Ex.
    + apply Hf in Ex as ->. rewrite IH.
      rewrite (bool_decide_eq_true_2 (k ∈ k :: l)) by left.
      rewrite (bool_decide_eq_false_2 (k ∈ l)) by exact Hx. reflexivity.
    + rewrite IH. assert (k <> x) by (intros ->; apply not_true_iff_false in Ex;
        apply Ex, Hf; reflexivity).
      destruct (bool_decide (k ∈ l)) eqn:Ek.
      * apply bool_decide_eq_true_1 in Ek.
        rewrite (bool_decide_eq_true_2 (k ∈ x :: l)) by (right; exact Ek).
        reflexivity.
      * apply bool_decide_eq_false_1 in Ek.
        rewrite (bool_decide_eq_false_2 (k ∈ x :: l)); [reflexivity|].
        rewrite elem_of_cons. tauto.
Qed.

(** The order in which a set of strings iterates does not show in
    [sorted(seen)]. *)
Lemma sorted_set_any_order (seen : gset string) (l : list string) :
  Permutation l (elements seen) ->
  stable_sort String.ltb (fun s => s) l = ProductService.sorted_set seen.
Proof.
  intros Hp. unfold ProductService.sorted_set.
  apply (sorted_stable_unique String.ltb (fun s => s) String_ltb_asym);
    try apply (stable_sort_sorted String.ltb (fun s => s) String_ltb_asym
                 String_ltb_cotrans).
  intros k.
  rewrite !(stable_sort_stable String.ltb (fun s => s) String_ltb_cotrans).
  assert (Hnd : List.NoDup (elements seen))
    by apply NoDup_ListNoDup, NoDup_elements.
  assert (Hl : List.NoDup l)
    by (eapply Permutation_NoDup; [symmetry; exact Hp|exact Hnd]).
  rewrite (filter_eq_NoDup _ k l (str_tied_eq k) Hl).
  rewrite (filter_eq_NoDup _ k (elements seen) (str_tied_eq k) Hnd).
  destruct (bool_decide (k ∈ l)) eqn:E1, (bool_decide (k ∈ elements seen)) eqn:E2;
    try reflexivity; exfalso.
  - apply bool_decide_eq_true_1 in E1. apply bool_decide_eq_false_1 in E2.
    apply E2. rewrite <- Hp. exact E1.
  - apply bool_decide_eq_false_1 in E1. apply bool_decide_eq_true_1 in E2.
    apply E1. rewrite Hp. exact E2.
Qed.

Lemma sorted_set_In (seen : gset string) (x : string) :
  In x (ProductService.sorted_set seen) <-> x ∈ seen.
Proof.
  unfold ProductService.sorted_set. rewrite <- elem_of_elements, list_elem_of_In.
  split; apply Permutation_in; [|symmetry]; apply stable_sort_Permutation.
Qed.

Lemma sorted_set_strict (seen : gset string) :
  StronglySorted str_lt (ProductService.sorted_set seen).
Proof.
  unfold ProductService.sorted_set.
  pose proof (stable_sort_sorted String.ltb (fun s => s) String_ltb_asym
                String_ltb_cotrans (elements seen)) as Hs.
  assert (Hnd : List.NoDup (stable_sort String.ltb (fun s => s) (elements seen))).
  { eapply Permutation_NoDup;
      [symmetry; apply stable_sort_Permutation|].
    apply NoDup_ListNoDup, NoDup_elements. }
  revert Hs Hnd. generalize (stable_sort String.ltb (fun s => s) (elements seen)).
  induction 1 as [|x l Hl IH Hx]; intros Hnd; constructor.
  - apply IH. inversion Hnd; assumption.
  - inversion Hnd as [|? ? Hnin _]; subst. rewrite List.Forall_forall in *.
    intros y Hy. specialize (Hx y Hy). unfold ascending in Hx. unfold str_lt.
    destruct (String.ltb x y) eqn:E; [reflexivity|].
    exfalso. apply Hnin. rewrite (String_ltb_total x y E Hx). exact Hy.
Qed.

Lemma brands_seen_acc (l : list Product) : forall (acc : gset string) (b : string),
  b ∈ fold_left
        (fun seen p =>
           match p with
           | Phone ph => {[PhoneProduct.brand ph]} ∪ seen
           | Plan _ => seen
           end) l acc
  <-> b ∈ acc \/ exists ph, In (Phone ph) l /\ PhoneProduct.brand ph = b.
Proof.
  induction l as [|p l IH]; intros acc b; simpl.
  - split; [auto|]. intros [H|(ph & [] & _)]. exact H.
  - rewrite IH. destruct p as [ph0|pl0].
    + rewrite elem_of_union, elem_of_singleton. split.
      * intros [[->|H]|(ph & Hin & Hb)]; eauto.
      * intros [H|(ph & [Heq|Hin] & Hb)]; eauto.
        injection Heq as ->. auto.
    + split.
      * intros [H|(ph & Hin & Hb)]; eauto.
      * intros [H|(ph & [Heq|Hin] & Hb)]; eauto. discriminate.
Qed.

Lemma networks_seen_acc (l : list Product) : forall (acc : gset string) (n : string),
  n ∈ fold_left
        (fun seen p =>
           match p with
           | Plan pl =>
               if truthy (PlanProduct.network pl)
               then {[or_empty (PlanProduct.network pl)]} ∪ seen
               else seen
           | Phone _ => seen
           end) l acc
  <-> n ∈ acc \/
      exists pl, In (Plan pl) l /\ PlanProduct.network pl = Some n /\ n <> EmptyString.
Proof.
  assert (Htr : forall o n, truthy o = true /\ or_empty o = n
                            <-> o = Some n /\ n <> EmptyString).
  { intros [s|] n; simpl.
    - destruct (String.eqb_spec s EmptyString); simpl; split.
      + intros [? _]. discriminate.
      + intros [[= ->] ?]. contradiction.
      + intros [_ ->]. auto.
      + intros [[= ->] _]. auto.
    - split; intros [? _]; discriminate. }
  induction l as [|p l IH]; intros acc n; simpl.
  - split; [auto|]. intros [H|(pl & [] & _)]. exact H.
  - rewrite IH. destruct p as [ph0|pl0].
    + split.
      * intros [H|(pl & Hin & Hn)]; eauto.
      * intros [H|(pl & [Heq|Hin] & Hn)]; eauto. discriminate.
    + destruct (truthy (PlanProduct.network pl0)) eqn:Et.
      * rewrite elem_of_union, elem_of_singleton. split.
        -- intros [[->|H]|(pl & Hin & Hn)]; eauto.
           right. exists pl0. split; [auto|]. apply Htr. auto.
        -- intros [H|(pl & [Heq|Hin] & Hn)]; eauto.
           injection Heq as ->. apply Htr in Hn as [_ Hn]. auto.
      * split.
        -- intros [H|(pl & Hin & Hn)]; eauto.
        -- intros [H|(pl & [Heq|Hin] & Hn)]; eauto.
           injection Heq as ->. apply Htr in Hn as [Hn _]. congruence.
Qed.

(** X5: [brands] returns exactly the brands of the phone records of the
    catalog, active or not, each once and in strictly ascending order. *)
Theorem brands_sorted_distinct (c : catalog) :
  (forall b : string,
     In b (ProductService.brands c)
     <-> exists ph, In (Phone ph) (dict_values c) /\ PhoneProduct.brand ph = b)
  /\ StronglySorted str_lt (ProductService.brands c).
Proof.
  split; [|apply sorted_set_strict].
  intros b. unfold ProductService.brands. rewrite sorted_set_In.
  unfold ProductService.brands_seen. rewrite brands_seen_acc.
  split; [intros [H|H]; [set_solver|exact H]|auto].
Qed.

(** X6: [networks] returns exactly the non-empty network values of the plan
    records of the catalog, active or not, each once and in strictly
    ascending order; a plan with no network value adds nothing. *)
Theorem networks_sorted_distinct (c : catalog) :
  (forall n : string,
     In n (ProductService.networks c)
     <-> exists pl, In (Plan pl) (dict_values c)
                    /\ PlanProduct.network pl = Some n /\ n <> EmptyString)
  /\ StronglySorted str_lt (ProductService.networks c).
Proof.
  split; [|apply sorted_set_strict].
  intros n. unfold ProductService.networks. rewrite sorted_set_In.
  unfold ProductService.networks_seen. rewrite networks_seen_acc.
  split; [intros [H|H]; [set_solver|exact H]|auto].
Qed.

Example brands_of_sample :
  ProductService.brands
    (ProductService.init
       [p1; s1; p2;
        Phone (PhoneProduct.mk "p3" "Gamma" "Zed" (1 # 1) "a phone" [] false);
        Phone (PhoneProduct.mk "p4" "Delta" "Bolt" (1 # 1) "a phone" [] true);
        Plan bare_plan])
  = ["Acme"; "Bolt"; "Zed"]
  /\ ProductService.networks
       (ProductService.init [p1; s1; Plan bare_plan]) = ["NetA"].
Proof. vm_compute. split; reflexivity. Qed.

(** ** More on what [list] returns *)

Lemma _matches_kind p q (k : Kind) brand network min_upfront max_upfront :
  _matches p q (Some k) brand network min_upfront max_upfront = true ->
  kind p = k.
Proof.
  unfold _matches. destruct (negb (active p)); [discriminate|].
  destruct (Kind_eqb (kind p) k) eqn:E; [|discriminate]. intros _.
  destruct (kind p), k; (reflexivity || discriminate).
Qed.

Lemma _matches_q p q kind_ brand network min_upfront max_upfront :
  _matches p q kind_ brand network min_upfront max_upfront = true ->
  truthy q = true ->
  str_in (lower (or_empty q)) (lower (hay p)) = true.
Proof.
  unfold _matches. intros H Hq. rewrite Hq in H.
  do 4 match type of H with
       | (if ?b then false else _) = true => destruct b; [discriminate H|]
       end.
  destruct (str_in _ _); [reflexivity|discriminate H].
Qed.

(** X7: every item that [list] returns is a record of the catalog; when a
    kind is asked for it has that kind, and when a non-empty query is given
    the lowercased query occurs in the lowercased text of the record (name,
    brand or network, description and highlights, joined by spaces). *)
Theorem list_items_meet_kind_and_query (c : catalog) (q : option string)
    (kind_ : option Kind) (brand network : option string)
    (min_upfront max_upfront : option Q) (sort : string) (page page_size : Z) :
  Forall
    (fun p =>
       In p (dict_values c)
       /\ (forall k, kind_ = Some k -> kind p = k)
       /\ (truthy q = true ->
           str_in (lower (or_empty q)) (lower (hay p)) = true))
    (fst (ProductService.list_ c q kind_ brand network min_upfront max_upfront
            sort page page_size)).
Proof.
  apply List.Forall_forall. intros p Hp.
  apply list_items_matching in Hp as [Hin Hm]. split; [exact Hin|]. split.
  - intros k ->. eapply _matches_kind, Hm.
  - eapply _matches_q, Hm.
Qed.

Lemma ascending_upfront_le (a b : Product) :
  ascending key_ltb (fun p => _sort_key p "upfront_price") a b -> upfront_le a b.
Proof.
  unfold ascending. destruct a as [x|x], b as [y|y]; simpl; auto.
  - apply Qltb_false_le.
  - discriminate.
Qed.

Lemma ascending_monthly_le (a b : Product) :
  ascending key_ltb (fun p => _sort_key p "monthly_fee") a b -> monthly_le a b.
Proof.
  unfold ascending. destruct a as [x|x], b as [y|y]; simpl; auto.
  - discriminate.
  - apply Qltb_false_le.
Qed.

(** X8: sorted by "upfront_price", the phones come in ascending order of
    price and every plan comes after every phone; by "-upfront_price" the
    order is the opposite, plans first. "monthly_fee" and "-monthly_fee" do
    the same with the fee of the plans, the phones standing in for the
    records without a fee. This holds of every page. *)
Theorem list_sorted_by_price (c : catalog) (q : option string)
    (kind_ : option Kind) (brand network : option string)
    (min_upfront max_upfront : option Q) (page page_size : Z) :
  let page_items sort :=
    fst (ProductService.list_ c q kind_ brand network min_upfront max_upfront
           sort page page_size) in
  StronglySorted upfront_le (page_items "upfront_price")
  /\ StronglySorted (fun a b => upfront_le b a) (page_items "-upfront_price")
  /\ StronglySorted monthly_le (page_items "monthly_fee")
  /\ StronglySorted (fun a b => monthly_le b a) (page_items "-monthly_fee").
Proof.
  intros page_items.
  assert (Hs : forall sort,
    StronglySorted
      (if String.prefix "-" sort
       then descending key_ltb (fun p => _sort_key p (sort_token sort))
       else ascending key_ltb (fun p => _sort_key p (sort_token sort)))
      (page_items sort)).
  { intros sort. apply StronglySorted_py_slice. rewrite sorted_items_eq.
    apply (list_sort_sorted key_ltb _ key_ltb_asym key_ltb_cotrans). }
  repeat split.
  - eapply StronglySorted_impl; [|exact (Hs "upfront_price")].
    intros a b. apply ascending_upfront_le.
  - eapply StronglySorted_impl; [|exact (Hs "-upfront_price")].
    intros a b. apply ascending_upfront_le.
  - eapply StronglySorted_impl; [|exact (Hs "monthly_fee")].
    intros a b. apply ascending_monthly_le.
  - eapply StronglySorted_impl; [|exact (Hs "-monthly_fee")].
    intros a b. apply ascending_monthly_le.
Qed.

Lemma filter_rev_short {A B} (f : A -> bool) (g : A -> B) (l : list A) :
  (forall a b, f a = true -> f b = true -> g a = g b) ->
  List.NoDup (map g l) ->
  List.filter f (rev l) = List.filter f l.
Proof.
  intros Hfg Hnd. rewrite List.filter_rev.
  induction l as [|x l IH]; [reflexivity|].
  inversion Hnd as [|? ? Hx Hl]; subst. cbn [List.filter].
  destruct (f x) eqn:Ex; [|apply IH, Hl].
  assert (E : List.filter f l = []).
  { destruct (List.filter f l) as [|y t] eqn:Ef; [reflexivity|]. exfalso.
    assert (Hy : In y (List.filter f l)) by (rewrite Ef; left; reflexivity).
    apply List.filter_In in Hy as [Hy Hfy]. apply Hx.
    rewrite (Hfg x y Ex Hfy). apply in_map, Hy. }
  rewrite E. reflexivity.
Qed.

Lemma name_tied_eq (k : sort_key) (a b : Product) :
  tied key_ltb (fun p => KStr (lower (name p))) k a = true ->
  tied key_ltb (fun p => KStr (lower (name p))) k b = true ->
  lower (name a) = lower (name b).
Proof.
  unfold tied. destruct k as [s| |]; simpl; try discriminate.
  intros Ha Hb. apply andb_prop in Ha as [Ha1 Ha2], Hb as [Hb1 Hb2].
  apply negb_true_iff in Ha1, Ha2, Hb1, Hb2.
  rewrite (String_ltb_total _ _ Ha2 Ha1), (String_ltb_total _ _ Hb2 Hb1).
  reflexivity.
Qed.

(** X9: when no two matching records have the same lowercased name, sorting
    by "-name" gives exactly the reverse of sorting by "name". *)
Theorem list_name_order_reverses (c : catalog) (q : option string)
    (kind_ : option Kind) (brand network : option string)
    (min_upfront max_upfront : option Q) :
  List.NoDup
    (map (fun p => lower (name p))
       (List.filter
          (fun p => _matches p q kind_ brand network min_upfront max_upfront)
          (dict_values c))) ->
  ProductService.sorted_items c q kind_ brand network min_upfront max_upfront
    "-name"
  = rev (ProductService.sorted_items c q kind_ brand network min_upfront
           max_upfront "name").
Proof.
  intros Hnd. rewrite !sorted_items_eq.
  change (String.prefix "-" "-name") with true.
  change (String.prefix "-" "name") with false.
  change (fun p => _sort_key p (sort_token "-name"))
    with (fun p => KStr (lower (name p))).
  change (fun p => _sort_key p (sort_token "name"))
    with (fun p => KStr (lower (name p))).
  cbn [list_sort]. f_equal.
  set (keyf := fun p : Product => KStr (lower (name p))).
  apply (sorted_stable_unique key_ltb keyf key_ltb_asym);
    try apply (stable_sort_sorted key_ltb keyf key_ltb_asym key_ltb_cotrans).
  intros k. rewrite !(stable_sort_stable key_ltb keyf key_ltb_cotrans).
  apply (filter_rev_short _ (fun p => lower (name p))); [|exact Hnd].
  intros a b. apply name_tied_eq.
Qed.

Lemma list_name_order_reverses_witness :
  ProductService.sorted_items (ProductService.init [p2; s1; p1])
    None None None None None None "-name"
  = rev (ProductService.sorted_items (ProductService.init [p2; s1; p1])
           None None None None None None "name").
Proof.
  apply list_name_order_reverses. vm_compute.
  repeat constructor; simpl; intuition discriminate.
Defined.

(** ** Page sizes *)

Lemma list_page_items (c : catalog) q kind_ brand network min_upfront max_upfront
    (sort : string) (page page_size : Z) :
  fst (ProductService.list_ c q kind_ brand network min_upfront max_upfront sort
         page page_size)
  = py_slice
      (ProductService.sorted_items c q kind_ brand network min_upfront max_upfront
         sort)
      (0 `max` ((page - 1) * page_size))
      (0 `max` ((page - 1) * page_size) + page_size).
Proof. reflexivity. Qed.

(** X10: with a page size of zero or more no page has more items than the
    page size, and with a positive page size every page before the last one,
    ceil(total / page_size), has exactly that many. *)
Theorem list_page_length (c : catalog) (q : option string) (kind_ : option Kind)
    (brand network : option string) (min_upfront max_upfront : option Q)
    (sort : string) (page page_size : Z) :
  0 <= page_size ->
  let r := ProductService.list_ c q kind_ brand network min_upfront max_upfront
             sort page page_size in
  Z.of_nat (length (fst r)) <= page_size
  /\ (1 <= page < page_count (snd r) page_size ->
      Z.of_nat (length (fst r)) = page_size).
Proof.
  intros Hps r. unfold r. rewrite list_page_items. cbn [snd ProductService.list_].
  set (all := ProductService.sorted_items _ _ _ _ _ _ _ _).
  set (start := 0 `max` ((page - 1) * page_size)).
  unfold py_slice, slice_index.
  destruct (Z.ltb_spec start 0); [lia|].
  destruct (Z.ltb_spec (start + page_size) 0); [lia|].
  rewrite length_take, length_drop. split; [lia|].
  intros [Hlo Hhi]. unfold page_count in Hhi.
  assert (0 < page_size) as Hpos.
  { destruct (Z.eq_dec page_size 0) as [->|]; [|lia].
    rewrite Z.div_0_r in Hhi. lia. }
  pose proof (Z.mul_div_le (Z.of_nat (length all) + page_size - 1) page_size Hpos).
  assert (start = (page - 1) * page_size) by (unfold start; nia).
  assert (page * page_size <= Z.of_nat (length all)) by nia.
  lia.
Qed.

Lemma list_page_length_witness :
  Z.of_nat (length (fst (ProductService.list_ (ProductService.init [s1; p1; p2])
                           None None None None None None "name" 1 2))) <= 2
  /\ (1 <= 1 < page_count
                 (snd (ProductService.list_ (ProductService.init [s1; p1; p2])
                         None None None None None None "name" 1 2)) 2 ->
      Z.of_nat (length (fst (ProductService.list_ (ProductService.init [s1; p1; p2])
                               None None None None None None "name" 1 2))) = 2).
Proof.
  apply (list_page_length (ProductService.init [s1; p1; p2])
           None None None None None None "name" 1 2).
  lia.
Defined.

(** X11: the page size is not checked. With a page size of zero every page
    is empty. With a negative page size a page number of zero or below gives
    an empty page, and every page number from 1 on gives the same thing: the
    whole sorted result without its last [- page_size] items. *)
Theorem list_page_size_not_positive (c : catalog) (q : option string)
    (kind_ : option Kind) (brand network : option string)
    (min_upfront max_upfront : option Q) (sort : string) (page page_size : Z) :
  let all :=
    ProductService.sorted_items c q kind_ brand network min_upfront max_upfront
      sort in
  let items :=
    fst (ProductService.list_ c q kind_ brand network min_upfront max_upfront
           sort page page_size) in
  (page_size = 0 -> items = [])
  /\ (page_size < 0 -> page <= 0 -> items = [])
  /\ (page_size < 0 -> 1 <= page ->
      items = take (Z.to_nat (Z.of_nat (length all) + page_size)) all).
Proof.
  intros all items. unfold items. rewrite list_page_items. fold all.
  set (start := 0 `max` ((page - 1) * page_size)).
  unfold py_slice, slice_index. repeat split.
  - intros ->. rewrite Z.add_0_r.
    replace (Z.to_nat _) with 0%nat; [reflexivity|].
    destruct (start <? 0); lia.
  - intros Hps Hpage. replace (Z.to_nat _) with 0%nat; [reflexivity|].
    assert (0 <= start + page_size) by (unfold start; nia).
    destruct (Z.ltb_spec start 0); [lia|].
    destruct (Z.ltb_spec (start + page_size) 0); lia.
  - intros Hps Hpage. assert (start = 0) as -> by (unfold start; nia).
    cbn [Z.ltb Z.compare]. rewrite Z.add_0_l.
    destruct (Z.ltb_spec page_size 0); [|lia].
    replace (Z.to_nat (0 `min` _)) with 0%nat by lia.
    rewrite drop_0. f_equal. lia.
Qed.

Example list_negative_page_size :
  fst (ProductService.list_ (ProductService.init [s1; p1; p2])
         None None None None None None "name" 7 (-1))
  = [p1; s1].
Proof. vm_compute. reflexivity. Qed.

(** ** Letter case in the filters *)

Lemma lower_empty (s : string) : lower s = EmptyString <-> s = EmptyString.
Proof. destruct s; simpl; split; congruence. Qed.

Lemma truthy_lower (a b : string) :
  lower a = lower b -> truthy (Some a) = truthy (Some b).
Proof.
  intros H. simpl. f_equal.
  destruct (String.eqb_spec a EmptyString) as [->|Ha],
           (String.eqb_spec b EmptyString) as [->|Hb]; try reflexivity; exfalso.
  - apply Hb, lower_empty. rewrite <- H. reflexivity.
  - apply Ha, lower_empty. rewrite H. reflexivity.
Qed.

Lemma _matches_letter_case p (q1 q2 b1 b2 n1 n2 : string) (kind_ : option Kind)
    (min_upfront max_upfront : option Q) :
  lower q1 = lower q2 -> lower b1 = lower b2 -> lower n1 = lower n2 ->
  _matches p (Some q1) kind_ (Some b1) (Some n1) min_upfront max_upfront
  = _matches p (Some q2) kind_ (Some b2) (Some n2) min_upfront max_upfront.
Proof.
  intros Hq Hb Hn. unfold _matches.
  rewrite (truthy_lower q1 q2 Hq), (truthy_lower b1 b2 Hb),
    (truthy_lower n1 n2 Hn).
  cbn [or_empty]. rewrite Hq, Hb, Hn. reflexivity.
Qed.

Lemma filter_ext_all {A} (f g : A -> bool) (l : list A) :
  (forall a, f a = g a) -> List.filter f l = List.filter g l.
Proof.
  intros H. induction l as [|x l IH]; simpl; [reflexivity|].
  rewrite H, IH. reflexivity.
Qed.

(** X12: the letter case of the query, of the brand filter and of the
    network filter does not matter: two calls of [list] whose filter strings
    differ in letter case only return the same items and the same total. *)
Theorem list_ignores_letter_case (c : catalog) (q1 q2 b1 b2 n1 n2 : string)
    (kind_ : option Kind) (min_upfront max_upfront : option Q)
    (sort : string) (page page_size : Z) :
  lower q1 = lower q2 -> lower b1 = lower b2 -> lower n1 = lower n2 ->
  ProductService.list_ c (Some q1) kind_ (Some b1) (Some n1)
    min_upfront max_upfront sort page page_size
  = ProductService.list_ c (Some q2) kind_ (Some b2) (Some n2)
      min_upfront max_upfront sort page page_size.
Proof.
  intros Hq Hb Hn. unfold ProductService.list_.
  assert (E : ProductService.sorted_items c (Some q1) kind_ (Some b1) (Some n1)
                min_upfront max_upfront sort
              = ProductService.sorted_items c (Some q2) kind_ (Some b2) (Some n2)
                  min_upfront max_upfront sort).
  { rewrite !sorted_items_eq. f_equal. apply filter_ext_all.
    intros p. apply _matches_letter_case; assumption. }
  rewrite E. reflexivity.
Qed.

Lemma list_ignores_letter_case_witness :
  ProductService.list_ (ProductService.init [p1; s1; p2])
    (Some "ALPHA") None (Some "acme") (Some "neta") None None "name" 1 12
  = ProductService.list_ (ProductService.init [p1; s1; p2])
      (Some "alpha") None (Some "ACME") (Some "NetA") None None "name" 1 12.
Proof. apply list_ignores_letter_case; reflexivity. Defined.

(** ** Batches without a validation failure *)

Lemma upsert_written_length (items : list payload) :
  (forall it k, In it items -> payload_kind it = Some k ->
     model_validate k it <> None) ->
  length (upsert_written items) = length (List.filter known_kind items).
Proof.
  induction items as [|it rest IH]; intros Hvalid; [reflexivity|].
  cbn [upsert_written List.filter]. unfold known_kind at 1.
  destruct (payload_kind it) as [k|] eqn:Ek.
  - destruct (model_validate k it) as [prod|] eqn:Ev.
    + simpl. rewrite IH; [reflexivity|]. intros; eapply Hvalid; eauto using in_cons.
    + exfalso. eapply Hvalid; eauto using in_eq.
  - apply IH. intros; eapply Hvalid; eauto using in_cons.
Qed.

Lemma upsert_written_In (items : list payload) (it : payload) (k : Kind)
    (p : Product) :
  (forall it k, In it items -> payload_kind it = Some k ->
     model_validate k it <> None) ->
  In it items -> payload_kind it = Some k -> model_validate k it = Some p ->
  In p (upsert_written items).
Proof.
  induction items as [|it0 rest IH]; intros Hvalid Hin Ek Ev; [destruct Hin|].
  cbn [upsert_written]. destruct Hin as [->|Hin].
  - rewrite Ek, Ev. left. reflexivity.
  - assert (In p (upsert_written rest))
      by (apply IH; auto; intros; eapply Hvalid; eauto using in_cons).
    destruct (payload_kind it0) as [k0|] eqn:Ek0; [|assumption].
    destruct (model_validate k0 it0) eqn:Ev0; [right; assumption|].
    exfalso. eapply Hvalid; eauto using in_eq.
Qed.

Lemma upsert_all_contains (ps : list Product) : forall (c : catalog) (k : string),
  dict_get k c <> None \/ In k (map sku ps) ->
  dict_get k (upsert_all ps c) <> None.
Proof.
  induction ps as [|p ps IH]; intros c k H; simpl.
  - destruct H as [H|[]]. exact H.
  - apply IH. rewrite dict_get_set.
    destruct (String.eqb_spec (sku p) k) as [E|Hne]; [left; discriminate|].
    destruct H as [H|[H|H]]; auto; contradiction.
Qed.

(** X13: when every payload whose kind is "phone" or "plan" passes
    validation, [upsert_many] does not raise; it returns the number of those
    payloads (the others are skipped), the SKU of each of them is in the
    catalog afterwards, and a SKU that was in the catalog keeps its place in
    the iteration order, the new ones following in the order of the batch. *)
Theorem upsert_many_valid_batch (items : list payload) (c : catalog) :
  (forall it k, In it items -> payload_kind it = Some k ->
     model_validate k it <> None) ->
  let r := ProductService.upsert_many items c in
  snd r = Ok (Z.of_nat (length (List.filter known_kind items)))
  /\ (forall it k p, In it items -> payload_kind it = Some k ->
        model_validate k it = Some p ->
        exists p', ProductService.get (fst r) (sku p) = Ok p')
  /\ (exists added, dict_keys (fst r) = (dict_keys c ++ added)%list).
Proof.
  intros Hvalid r. unfold r. rewrite (upsert_many_all_valid items c Hvalid).
  cbn [fst snd]. split; [|split].
  - rewrite upsert_written_length by exact Hvalid. reflexivity.
  - intros it k p Hin Ek Ev. unfold ProductService.get.
    destruct (dict_get (sku p) (upsert_all (upsert_written items) c))
      as [p'|] eqn:Eg; [eauto|].
    exfalso. apply (upsert_all_contains (upsert_written items) c (sku p));
      [|exact Eg].
    right. apply in_map. eapply upsert_written_In; eassumption.
  - clear Hvalid r. generalize (upsert_written items). intros ps. revert c.
    induction ps as [|p ps IH]; intros c; simpl.
    + exists []. rewrite app_nil_r. reflexivity.
    + destruct (IH (dict_set (sku p) p c)) as [added Ha]. rewrite Ha.
      rewrite dict_keys_set. destruct (dict_contains (sku p) c); [eauto|].
      rewrite <- app_assoc. eauto.
Qed.

Lemma upsert_many_valid_batch_witness :
  snd (ProductService.upsert_many
         [phone_payload "p1" "Alpha" "Acme" (500 # 1) true; no_kind_payload]
         [("s1", s1)])
  = Ok (Z.of_nat (length (List.filter known_kind
          [phone_payload "p1" "Alpha" "Acme" (500 # 1) true; no_kind_payload]))).
Proof.
  apply (upsert_many_valid_batch
           [phone_payload "p1" "Alpha" "Acme" (500 # 1) true; no_kind_payload]
           [("s1", s1)]).
  intros it k [<-|[<-|[]]] Hk.
  - injection Hk as <-. vm_compute. discriminate.
  - vm_compute in Hk. discriminate Hk.
Defined.

(** * Properties of the cart service *)

Section KDictFacts.
Context {K V : Type} `{EqDecision K}.
Implicit Types (d : list (K * V)) (k : K) (v : V).

Lemma kdict_get_set k k' v d :
  kdict_get k (kdict_set k' v d)
  = if bool_decide (k' = k) then Some v else kdict_get k d.
Proof.
  induction d as [|[k0 v0] d IH]; simpl.
  - reflexivity.
  - destruct (bool_decide_reflect (k0 = k')) as [->|Hne]; simpl.
    + destruct (bool_decide (k' = k)); reflexivity.
    + rewrite IH. destruct (bool_decide_reflect (k0 = k)) as [->|]; [|reflexivity].
      rewrite bool_decide_eq_false_2 by congruence. reflexivity.
Qed.

Lemma kdict_get_In k v d : kdict_get k d = Some v -> In (k, v) d.
Proof.
  induction d as [|[k0 v0] d IH]; simpl; [discriminate|].
  destruct (bool_decide_reflect (k0 = k)) as [->|]; [|auto].
  intros [= ->]. auto.
Qed.

Lemma kdict_get_None k d : kdict_get k d = None <-> ~ In k (map fst d).
Proof.
  induction d as [|[k0 v0] d IH]; simpl; [tauto|].
  destruct (bool_decide_reflect (k0 = k)) as [->|Hne]; [split; [discriminate|tauto]|].
  rewrite IH. tauto.
Qed.

Lemma kdict_set_keys k v d :
  map fst (kdict_set k v d)
  = match kdict_get k d with
    | Some _ => map fst d
    | None => (map fst d ++ [k])%list
    end.
Proof.
  induction d as [|[k0 v0] d IH]; simpl; [reflexivity|].
  destruct (bool_decide (k0 = k)); simpl; [reflexivity|].
  rewrite IH. destruct (kdict_get k d); reflexivity.
Qed.

Lemma kdict_set_NoDup k v d :
  List.NoDup (map fst d) -> List.NoDup (map fst (kdict_set k v d)).
Proof.
  intros Hd. rewrite kdict_set_keys. destruct (kdict_get k d) eqn:E; [exact Hd|].
  apply kdict_get_None in E. apply NoDup_ListNoDup, NoDup_app.
  apply NoDup_ListNoDup in Hd. split; [exact Hd|]. split; [|apply NoDup_singleton].
  intros x Hx Hk. apply list_elem_of_In in Hx.
  apply list_elem_of_singleton in Hk. subst. contradiction.
Qed.

Lemma kdict_pop_incl kv k d : In kv (kdict_pop k d) -> In kv d.
Proof.
  induction d as [|[k0 v0] d IH]; simpl; [tauto|].
  destruct (bool_decide (k0 = k)); simpl; tauto.
Qed.

Lemma kdict_pop_keys_incl k k' d :
  In k (map fst (kdict_pop k' d)) -> In k (map fst d).
Proof.
  induction d as [|[k0 v0] d IH]; simpl; [tauto|].
  destruct (bool_decide (k0 = k')); simpl; tauto.
Qed.

Lemma kdict_pop_NoDup k d :
  List.NoDup (map fst d) -> List.NoDup (map fst (kdict_pop k d)).
Proof.
  induction d as [|[k0 v0] d IH]; simpl; [trivial|].
  intros Hd. inversion Hd as [|? ? Hk0 Hd']; subst.
  destruct (bool_decide (k0 = k)); simpl; [exact Hd'|].
  constructor; [|auto]. intros Hin. apply Hk0. eapply kdict_pop_keys_incl, Hin.
Qed.

Lemma kdict_get_pop k k' d :
  List.NoDup (map fst d) ->
  kdict_get k (kdict_pop k' d)
  = if bool_decide (k' = k) then None else kdict_get k d.
Proof.
  induction d as [|[k0 v0] d IH]; simpl; intros Hd.
  - destruct (bool_decide (k' = k)); reflexivity.
  - inversion Hd as [|? ? Hk0 Hd']; subst.
    destruct (bool_decide_reflect (k0 = k')) as [->|Hne]; simpl.
    + destruct (bool_decide_reflect (k' = k)) as [->|]; [|reflexivity].
      apply kdict_get_None, Hk0.
    + rewrite IH by exact Hd'.
      destruct (bool_decide_reflect (k0 = k)) as [->|]; [|reflexivity].
      rewrite bool_decide_eq_false_2 by congruence. reflexivity.
Qed.

Lemma kdict_set_Forall (P : K * V -> Prop) k v d :
  P (k, v) -> Forall P d -> Forall P (kdict_set k v d).
Proof.
  intros Hkv. induction 1 as [|[k0 v0] d H0 Hd IH]; simpl.
  - repeat constructor. exact Hkv.
  - destruct (bool_decide_reflect (k0 = k)) as [->|].
    + constructor; assumption.
    + constructor; assumption.
Qed.

Lemma kdict_pop_Forall (P : K * V -> Prop) k d :
  Forall P d -> Forall P (kdict_pop k d).
Proof.
  intros Hd. apply List.Forall_forall. intros kv Hin.
  rewrite List.Forall_forall in Hd. eapply Hd, kdict_pop_incl, Hin.
Qed.
End KDictFacts.

Section CartFacts.
Context (F : float_ops) (CATALOG PLANS : gmap string (string * F)).

Local Abbreviation price := (CartService._price_for_item F CATALOG PLANS).
Local Abbreviation entry_ok' := (entry_ok F CATALOG PLANS).
Local Abbreviation cart_ok' := (cart_ok F CATALOG PLANS).
Local Abbreviation store_ok' := (store_ok F CATALOG PLANS).
Local Abbreviation step := (cart_step F CATALOG PLANS).

Lemma materialize_loop_ok (c : cart) :
  Forall entry_ok' c ->
  forall items up mo, exists items' up' mo',
    CartService.materialize_loop F CATALOG PLANS c items up mo
    = Ok ((items ++ items')%list, up', mo')
    /\ map line_entry items' = c.
Proof.
  induction 1 as [|[[sku0 kind0] qty0] c [Hq [[[lbl up1] mo1] Hp]] Hc IH];
    intros items up mo; cbn [CartService.materialize_loop].
  - exists [], up, mo. rewrite app_nil_r. split; reflexivity.
  - cbn [fst snd] in Hq, Hp. destruct (Z.leb_spec qty0 0); [lia|]. rewrite Hp.
    edestruct IH as (items' & up' & mo' & -> & Hmap).
    eexists (_ :: items'), up', mo'. rewrite <- app_assoc. split; [reflexivity|].
    cbn [map]. rewrite Hmap. reflexivity.
Qed.

Lemma item_count_sum (c : cart) :
  Forall entry_ok' c ->
  CartService.item_count c = foldr (fun kq acc => snd kq + acc) 0 c.
Proof.
  unfold CartService.item_count. intros Hc.
  assert (forall a,
    fold_left (fun acc kq => if 0 <? snd kq then acc + snd kq else acc) c a
    = a + foldr (fun kq acc => snd kq + acc) 0 c) as Hgen.
  { induction Hc as [|kq c [Hq _] Hc IH]; intros a; simpl; [lia|].
    destruct (Z.ltb_spec 0 (snd kq)); [|lia]. rewrite IH. lia. }
  rewrite Hgen. lia.
Qed.

Lemma _materialize_ok (c : cart) :
  cart_ok' c ->
  exists v, CartService._materialize F CATALOG PLANS c = Ok v
            /\ map line_entry (CartView.items v) = c
            /\ CartTotals.item_count (CartView.totals v)
               = foldr (fun kq acc => snd kq + acc) 0 c.
Proof.
  intros [_ Hc]. unfold CartService._materialize.
  destruct (materialize_loop_ok c Hc [] (fzero F) (fzero F))
    as (items' & up' & mo' & -> & Hmap).
  eexists. split; [reflexivity|]. cbn. split; [exact Hmap|].
  apply item_count_sum, Hc.
Qed.

Lemma cart_ok_nil : cart_ok' [].
Proof. split; constructor. Qed.

Lemma store_ok_insert (s : string) (c : cart) (st : carts) :
  store_ok' st -> cart_ok' c -> store_ok' (<[s := c]> st).
Proof.
  intros Hst Hc s' c'. rewrite lookup_insert.
  case_decide; [intros [= <-]; exact Hc|apply Hst].
Qed.

Lemma cart_of_ok (s : string) (st : carts) : store_ok' st -> cart_ok' (cart_of s st).
Proof.
  intros Hst. unfold cart_of. destruct (st !! s) as [c|] eqn:E; simpl.
  - eapply Hst, E.
  - apply cart_ok_nil.
Qed.

Lemma get_cart_spec (s : string) (st : carts) :
  InMemoryCartStore.get_cart s st = (<[s := cart_of s st]> st, cart_of s st).
Proof.
  unfold InMemoryCartStore.get_cart, cart_of.
  destruct (st !! s) as [c|] eqn:E; simpl; [|reflexivity].
  rewrite insert_id by exact E. reflexivity.
Qed.

Lemma cart_of_insert (s s' : string) (c : cart) (st : carts) :
  cart_of s' (<[s := c]> st) = if decide (s = s') then c else cart_of s' st.
Proof. unfold cart_of. rewrite lookup_insert. case_decide; reflexivity. Qed.

Lemma set_qty_spec (s sku0 kind0 : string) (qty0 : Z) (st : carts) :
  InMemoryCartStore.set_qty s sku0 kind0 qty0 st
  = <[s := if qty0 <=? 0 then kdict_pop (sku0, kind0) (cart_of s st)
           else kdict_set (sku0, kind0) qty0 (cart_of s st)]> st.
Proof.
  unfold InMemoryCartStore.set_qty. rewrite get_cart_spec.
  destruct (qty0 <=? 0); apply insert_insert_eq.
Qed.

Lemma cart_ok_set (k : cart_key) (qty0 : Z) (c : cart) :
  entry_ok' (k, qty0) -> cart_ok' c -> cart_ok' (kdict_set k qty0 c).
Proof.
  intros Hk [Hnd Hc]. split; [apply kdict_set_NoDup, Hnd|].
  apply kdict_set_Forall; assumption.
Qed.

Lemma cart_ok_pop (k : cart_key) (c : cart) :
  cart_ok' c -> cart_ok' (kdict_pop k c).
Proof.
  intros [Hnd Hc]. split; [apply kdict_pop_NoDup, Hnd|].
  apply kdict_pop_Forall, Hc.
Qed.

Lemma set_qty_ok (s sku0 kind0 : string) (qty0 : Z) (st : carts) :
  (0 < qty0 -> exists r, price sku0 kind0 = Ok r) ->
  store_ok' st -> store_ok' (InMemoryCartStore.set_qty s sku0 kind0 qty0 st).
Proof.
  intros Hp Hst. rewrite set_qty_spec. apply store_ok_insert; [exact Hst|].
  pose proof (cart_of_ok s st Hst) as Hc.
  destruct (Z.leb_spec qty0 0); [apply cart_ok_pop, Hc|].
  apply cart_ok_set; [|exact Hc]. split; [simpl; lia|apply Hp; lia].
Qed.

Lemma view_spec (s : string) (st : carts) :
  CartService.view F CATALOG PLANS s st
  = (<[s := cart_of s st]> st,
     CartService._materialize F CATALOG PLANS (cart_of s st)).
Proof. unfold CartService.view. rewrite get_cart_spec. reflexivity. Qed.

Lemma view_ok (s : string) (st : carts) :
  store_ok' st ->
  store_ok' (fst (CartService.view F CATALOG PLANS s st))
  /\ exists v, snd (CartService.view F CATALOG PLANS s st) = Ok v.
Proof.
  intros Hst. rewrite view_spec. cbn [fst snd].
  pose proof (cart_of_ok s st Hst) as Hc. split.
  - apply store_ok_insert; assumption.
  - destruct (_materialize_ok _ Hc) as (v & -> & _). eauto.
Qed.

Lemma add_spec (s sku0 kind0 : string) (qty0 : Z) (st : carts) r :
  1 <= qty0 -> price sku0 kind0 = Ok r ->
  CartService.add F CATALOG PLANS s sku0 kind0 qty0 st
  = let c' := kdict_set (sku0, kind0)
                (default 0 (kdict_get (sku0, kind0) (cart_of s st)) + qty0)
                (cart_of s st) in
    (<[s := c']> st, CartService._materialize F CATALOG PLANS c').
Proof.
  intros Hq Hp. unfold CartService.add.
  destruct (Z.ltb_spec qty0 1); [lia|]. rewrite Hp, get_cart_spec.
  cbv zeta. rewrite insert_insert_eq. reflexivity.
Qed.

Lemma add_entry_ok (sku0 kind0 : string) (qty0 : Z) (c : cart) r :
  1 <= qty0 -> price sku0 kind0 = Ok r -> cart_ok' c ->
  entry_ok' ((sku0, kind0), default 0 (kdict_get (sku0, kind0) c) + qty0).
Proof.
  intros Hq Hp [_ Hc]. split; [|simpl; eauto]. cbn [snd].
  destruct (kdict_get (sku0, kind0) c) as [old|] eqn:E; simpl; [|lia].
  apply kdict_get_In in E. rewrite List.Forall_forall in Hc.
  destruct (Hc _ E) as [Hold _]. simpl in Hold. lia.
Qed.

(** Under the invariant a call raises only when it rejects its arguments,
    and then the store is as it was. *)
Lemma step_ok (o : cart_op) (st : carts) :
  store_ok' st ->
  store_ok' (fst (step o st))
  /\ (forall e, snd (step o st) = Raise e -> fst (step o st) = st).
Proof.
  intros Hst. destruct o as [s|s sku0 kind0 qty0|s sku0 kind0 qty0|s sku0 kind0|s];
    cbn [cart_step].
  - destruct (view_ok s st Hst) as [H1 [v Hv]]. split; [exact H1|].
    intros e He. congruence.
  - destruct (Z.ltb_spec qty0 1) as [Hlt|Hge].
    + unfold CartService.add. destruct (Z.ltb_spec qty0 1); [|lia]. auto.
    + destruct (price sku0 kind0) as [r|e0] eqn:Hp.
      * rewrite (add_spec s sku0 kind0 qty0 st r Hge Hp). cbv zeta. cbn [fst snd].
        assert (Hc : cart_ok'
                  (kdict_set (sku0, kind0)
                     (default 0 (kdict_get (sku0, kind0) (cart_of s st)) + qty0)
                     (cart_of s st))).
        { apply cart_ok_set; [eapply add_entry_ok; eauto|];
            apply cart_of_ok, Hst. }
        split; [apply store_ok_insert; assumption|].
        destruct (_materialize_ok _ Hc) as (v & -> & _). discriminate.
      * unfold CartService.add. destruct (Z.ltb_spec qty0 1); [lia|].
        rewrite Hp. auto.
  - unfold CartService.update_qty. destruct (Z.ltb_spec qty0 0); [auto|].
    destruct (Z.ltb_spec 0 qty0) as [Hpos|Hzero].
    + destruct (price sku0 kind0) as [r|e0] eqn:Hp; [|auto].
      assert (Hst' : store_ok' (InMemoryCartStore.set_qty s sku0 kind0 qty0 st))
        by (apply set_qty_ok; eauto).
      destruct (view_ok s _ Hst') as [H1 [v Hv]]. split; [exact H1|].
      intros e He. congruence.
    + assert (Hst' : store_ok' (InMemoryCartStore.set_qty s sku0 kind0 qty0 st))
        by (apply set_qty_ok; [lia|exact Hst]).
      destruct (view_ok s _ Hst') as [H1 [v Hv]]. split; [exact H1|].
      intros e He. congruence.
  - unfold CartService.remove.
    assert (Hst' : store_ok' (InMemoryCartStore.set_qty s sku0 kind0 0 st))
      by (apply set_qty_ok; [lia|exact Hst]).
    destruct (view_ok s _ Hst') as [H1 [v Hv]]. split; [exact H1|].
    intros e He. congruence.
  - unfold CartService.clear.
    assert (Hst' : store_ok' (InMemoryCartStore.clear s st))
      by (apply store_ok_insert; [exact Hst|apply cart_ok_nil]).
    destruct (view_ok s _ Hst') as [H1 [v Hv]]. split; [exact H1|].
    intros e He. congruence.
Qed.

Lemma cart_run_ok (ops : list cart_op) : forall st,
  store_ok' st -> store_ok' (cart_run F CATALOG PLANS ops st).
Proof.
  induction ops as [|o ops IH]; intros st Hst; simpl; [exact Hst|].
  apply IH, step_ok, Hst.
Qed.

Lemma store_ok_empty : store_ok' ∅.
Proof. intros s c. rewrite lookup_empty. discriminate. Qed.
End CartFacts.

Section CartTheorems.
Context (F : float_ops) (CATALOG PLANS : gmap string (string * F)).



(** X16: [add] with a quantity of at least 1 and an item that has a price
    adds the quantity to the one the cart already holds for that SKU and
    kind (none counts as 0); the other entries of the cart and the carts of
    the other sessions are as before. *)
Theorem cart_add_accumulates (session_id sku0 kind0 : string) (qty0 : Z)
    (st : carts) (r : string * F * F) :
  1 <= qty0 ->
  CartService._price_for_item F CATALOG PLANS sku0 kind0 = Ok r ->
  let st' := fst (CartService.add F CATALOG PLANS session_id sku0 kind0 qty0 st) in
  kdict_get (sku0, kind0) (cart_of session_id st')
  = Some (default 0 (kdict_get (sku0, kind0) (cart_of session_id st)) + qty0)
  /\ (forall k, k <> (sku0, kind0) ->
        kdict_get k (cart_of session_id st') = kdict_get k (cart_of session_id st))
  /\ (forall s, s <> session_id -> st' !! s = st !! s).
Proof.
  intros Hq Hp st'. unfold st'. rewrite (add_spec F CATALOG PLANS _ _ _ _ _ r Hq Hp).
  cbv zeta. cbn [fst]. rewrite cart_of_insert, decide_True by reflexivity.
  split; [|split].
  - rewrite kdict_get_set, bool_decide_eq_true_2 by reflexivity. reflexivity.
  - intros k Hk. rewrite kdict_get_set, bool_decide_eq_false_2 by congruence.
    reflexivity.
  - intros s Hs. apply lookup_insert_ne. congruence.
Qed.

(** X17: a call about one session never changes the cart of another
    session, nor whether the store has one. *)
Theorem cart_sessions_apart (o : cart_op) (st : carts) (s : string) :
  s <> op_session o ->
  fst (cart_step F CATALOG PLANS o st) !! s = st !! s.
Proof.
  intros Hs.
  assert (Hview : forall s0 st0, s <> s0 ->
    fst (CartService.view F CATALOG PLANS s0 st0) !! s = st0 !! s).
  { intros s0 st0 H0. rewrite view_spec. cbn [fst].
    apply lookup_insert_ne. congruence. }
  assert (Hset : forall s0 sku0 kind0 qty0, s <> s0 ->
    InMemoryCartStore.set_qty s0 sku0 kind0 qty0 st !! s = st !! s).
  { intros s0 sku0 kind0 qty0 H0. rewrite set_qty_spec.
    apply lookup_insert_ne. congruence. }
  destruct o as [s0|s0 sku0 kind0 qty0|s0 sku0 kind0 qty0|s0 sku0 kind0|s0];
    cbn [cart_step op_session] in *.
  - apply Hview, Hs.
  - unfold CartService.add. destruct (qty0 <? 1); [reflexivity|].
    destruct (CartService._price_for_item _ _ _ _ _); [|reflexivity].
    rewrite get_cart_spec. cbn [fst]. rewrite insert_insert_eq.
    apply lookup_insert_ne. congruence.
  - unfold CartService.update_qty. destruct (qty0 <? 0); [reflexivity|].
    destruct (if 0 <? qty0 then _ else _); [|reflexivity].
    rewrite Hview by exact Hs. apply Hset, Hs.
  - unfold CartService.remove. rewrite Hview by exact Hs. apply Hset, Hs.
  - unfold CartService.clear, InMemoryCartStore.clear.
    rewrite Hview by exact Hs. apply lookup_insert_ne. congruence.
Qed.


(** X19: after any sequence of calls on an empty store, [update_qty] with a
    positive quantity and an item that has a price sets the quantity of that
    SKU and kind to the one given, whatever it was before, and leaves the
    other entries of the cart as they were. *)
Theorem cart_update_qty_sets (ops : list cart_op) (session_id sku0 kind0 : string)
    (qty0 : Z) (r : string * F * F) :
  0 < qty0 ->
  CartService._price_for_item F CATALOG PLANS sku0 kind0 = Ok r ->
  let st := cart_run F CATALOG PLANS ops ∅ in
  let st' :=
    fst (CartService.update_qty F CATALOG PLANS session_id sku0 kind0 qty0 st) in
  kdict_get (sku0, kind0) (cart_of session_id st') = Some qty0
  /\ (forall k, k <> (sku0, kind0) ->
        kdict_get k (cart_of session_id st') = kdict_get k (cart_of session_id st)).
Proof.
  intros Hq Hp st st'. unfold st', CartService.update_qty.
  destruct (Z.ltb_spec qty0 0); [lia|]. destruct (Z.ltb_spec 0 qty0); [|lia].
  rewrite Hp, view_spec, set_qty_spec. destruct (Z.leb_spec qty0 0); [lia|].
  cbn [fst]. rewrite !cart_of_insert, !decide_True by reflexivity. split.
  - rewrite kdict_get_set, bool_decide_eq_true_2 by reflexivity. reflexivity.
  - intros k Hk. rewrite kdict_get_set, bool_decide_eq_false_2 by congruence.
    reflexivity.
Qed.
End CartTheorems.


Lemma cart_add_accumulates_witness :
  kdict_get ("p-iphone-15", "phone")
    (cart_of "s"
       (fst (CartService.add exact sample_CATALOG sample_PLANS
               "s" "p-iphone-15" "phone" 3
               {["s" := [(("p-iphone-15", "phone"), 2)]]})))
  = Some (default 0
            (kdict_get ("p-iphone-15", "phone")
               (cart_of "s" {["s" := [(("p-iphone-15", "phone"), 2)]]})) + 3).
Proof.
  apply (cart_add_accumulates exact sample_CATALOG sample_PLANS
           "s" "p-iphone-15" "phone" 3
           {["s" := [(("p-iphone-15", "phone"), 2)]]}
           ("iPhone 15", 999 # 1, 0%Q)).
  - lia.
  - vm_compute. reflexivity.
Defined.

Lemma cart_sessions_apart_witness :
  fst (cart_step exact sample_CATALOG sample_PLANS (CartClear "a")
         {["a" := [(("p-iphone-15", "phone"), 2)];
           "b" := [(("plan-basic", "plan"), 1)]]}) !! "b"
  = ({["a" := [(("p-iphone-15", "phone"), 2)];
       "b" := [(("plan-basic", "plan"), 1)]]} : carts) !! "b".
Proof.
  apply (cart_sessions_apart exact sample_CATALOG sample_PLANS (CartClear "a")).
  simpl. discriminate.
Defined.

Lemma cart_update_qty_sets_witness :
  kdict_get ("plan-basic", "plan")
    (cart_of "s"
       (fst (CartService.update_qty exact sample_CATALOG sample_PLANS
               "s" "plan-basic" "plan" 4
               (cart_run exact sample_CATALOG sample_PLANS
                  [CartAdd "s" "plan-basic" "plan" 1] ∅))))
  = Some 4.
Proof.
  apply (cart_update_qty_sets exact sample_CATALOG sample_PLANS
           [CartAdd "s" "plan-basic" "plan" 1] "s" "plan-basic" "plan" 4
           ("Basic", 0%Q, 20 # 1)).
  - lia.
  - vm_compute. reflexivity.
Defined.

Example cart_bundle_view :
  snd (CartService.add exact sample_CATALOG sample_PLANS
         "s" "p-iphone-15|plan-basic" "bundle" 2 ∅)
  = Ok (CartView.mk
          [CartLine.mk "p-iphone-15|plan-basic" "bundle" 2
             "iPhone 15 + Basic" (199800 # 100) (4000 # 100)]
          (CartTotals.mk (199800 # 100) (4000 # 100) 2)).
Proof. vm_compute. reflexivity. Qed.

(** ** Pricing one item *)

Lemma split_bar_None (s : string) :
  split_bar s = None <-> ~ In "|"%char (list_ascii_of_string s).
Proof.
  induction s as [|ch s IH]; simpl; [tauto|].
  destruct (Ascii.eqb_spec ch "|") as [->|Hne].
  - split; [discriminate|tauto].
  - destruct (split_bar s) as [[a b]|].
    + split; [discriminate|]. intros H.
      assert (Hin : ~ In "|"%char (list_ascii_of_string s)) by tauto.
      apply IH in Hin. discriminate.
    + split; [|reflexivity]. intros _ [H|H]; [congruence|].
      apply (proj1 IH); [reflexivity|exact H].
Qed.

Lemma split_bar_first (a b : string) :
  ~ In "|"%char (list_ascii_of_string a) ->
  split_bar (a ++ "|" ++ b) = Some (a, b).
Proof.
  induction a as [|ch a IH]; simpl; intros Ha; [reflexivity|].
  destruct (Ascii.eqb_spec ch "|") as [->|Hne]; [tauto|].
  rewrite IH by tauto. reflexivity.
Qed.

(** X20: pricing an item of the cart fails with [KeyError] only, also for a
    bundle SKU without a bar, whose [ValueError] is turned into one. A
    bundle SKU is cut at its first bar: the text before it is priced as a
    phone and all the text after it as a plan, the phone first; the bundle
    has the upfront price of the phone, the monthly price of the plan and
    the two names joined by " + " as its label. *)
Theorem cart_price_for_item (F : float_ops) (CATALOG PLANS : gmap string (string * F)) :
  (forall sku0 kind0 e,
     CartService._price_for_item F CATALOG PLANS sku0 kind0 = Raise e ->
     exists msg, e = KeyError msg)
  /\ (forall a b, ~ In "|"%char (list_ascii_of_string a) ->
        CartService._price_for_item F CATALOG PLANS (a ++ "|" ++ b) "bundle"
        = match CartService._price_for_item F CATALOG PLANS a "phone" with
          | Raise e => Raise e
          | Ok (phone_name, up, _) =>
              match CartService._price_for_item F CATALOG PLANS b "plan" with
              | Raise e => Raise e
              | Ok (plan_name, _, mo) =>
                  Ok (phone_name ++ " + " ++ plan_name, up, mo)
              end
          end)
  /\ (forall sku0, ~ In "|"%char (list_ascii_of_string sku0) ->
        exists msg,
          CartService._price_for_item F CATALOG PLANS sku0 "bundle"
          = Raise (KeyError msg)).
Proof.
  assert (Hphone : forall s e, CartService.price_phone F CATALOG s = Raise e ->
                               exists msg, e = KeyError msg).
  { intros s e. unfold CartService.price_phone.
    destruct (CATALOG !! s) as [[n p]|]; [discriminate|]. intros [= <-]. eauto. }
  assert (Hplan : forall s e, CartService.price_plan F PLANS s = Raise e ->
                              exists msg, e = KeyError msg).
  { intros s e. unfold CartService.price_plan.
    destruct (PLANS !! s) as [[n p]|]; [discriminate|]. intros [= <-]. eauto. }
  split; [|split].
  - intros sku0 kind0 e. unfold CartService._price_for_item.
    destruct (String.eqb kind0 "phone"); [apply Hphone|].
    destruct (String.eqb kind0 "plan"); [apply Hplan|].
    destruct (String.eqb kind0 "bundle"); [|intros [= <-]; eauto].
    destruct (split_bar sku0) as [[a b]|]; [|intros [= <-]; eauto].
    destruct (CartService.price_phone F CATALOG a) as [[[n1 up] ?]|e1] eqn:E1.
    + destruct (CartService.price_plan F PLANS b) as [[[n2 ?] mo]|e2] eqn:E2;
        [discriminate|]. intros [= <-]. eapply Hplan, E2.
    + intros [= <-]. eapply Hphone, E1.
  - intros a b Ha. unfold CartService._price_for_item at 1.
    cbn [String.eqb Ascii.eqb Bool.eqb]. rewrite split_bar_first by exact Ha.
    reflexivity.
  - intros sku0 Hs. unfold CartService._price_for_item.
    cbn [String.eqb Ascii.eqb Bool.eqb]. apply split_bar_None in Hs. rewrite Hs.
    eauto.
Qed.

(** * Properties of the checkout service *)

Section CheckoutFacts.
Context (F : float_ops) (CATALOG PLANS : gmap string (string * F)).

Local Abbreviation item_ok' := (item_ok F CATALOG PLANS).
Local Abbreviation quote_loop' := (CheckoutService.quote_loop F CATALOG PLANS).

Lemma quote_loop_ok (items : list CartItem.t) :
  Forall item_ok' items ->
  forall up mo ls, exists up' mo' ls',
    quote_loop' items up mo ls = Ok (up', mo', (ls ++ ls')%list)
    /\ map LineSummary.label ls' = map (line_label F CATALOG PLANS) items.
Proof.
  induction 1 as [|it items [Hq [[[lbl up1] mo1] Hp]] Hitems IH];
    intros up mo ls; cbn [CheckoutService.quote_loop].
  - exists up, mo, []. rewrite app_nil_r. split; reflexivity.
  - destruct (Z.ltb_spec (CartItem.qty it) 1); [lia|]. rewrite Hp.
    edestruct IH as (up' & mo' & ls' & -> & Hmap).
    eexists up', mo', (_ :: ls'). rewrite <- app_assoc. split; [reflexivity|].
    cbn [map LineSummary.label]. rewrite Hmap. unfold line_label at 2.
    rewrite Hp. reflexivity.
Qed.

(** The loop stops at the first item it does not accept: a quantity below 1
    is reported before the price of that item is looked up. *)
Lemma quote_loop_first_bad (good rest : list CartItem.t) (bad : CartItem.t) :
  Forall item_ok' good ->
  forall up mo ls,
    quote_loop' (good ++ bad :: rest)%list up mo ls
    = if CartItem.qty bad <? 1 then Raise (ValueError "Quantity must be >= 1")
      else match CheckoutService._price_for_item F CATALOG PLANS
                   (CartItem.sku bad) (CartItem.kind bad) with
           | Raise e => Raise e
           | Ok _ => quote_loop' (good ++ bad :: rest)%list up mo ls
           end.
Proof.
  induction 1 as [|it good [Hq [[[lbl up1] mo1] Hp]] Hgood IH]; intros up mo ls.
  - cbn [app CheckoutService.quote_loop].
    destruct (CartItem.qty bad <? 1); [reflexivity|].
    destruct (CheckoutService._price_for_item _ _ _ _ _) as [[[? ?] ?]|];
      reflexivity.
  - cbn [app CheckoutService.quote_loop].
    destruct (Z.ltb_spec (CartItem.qty it) 1); [lia|]. rewrite Hp.
    rewrite IH at 1.
    destruct (CartItem.qty bad <? 1); [reflexivity|].
    destruct (CheckoutService._price_for_item _ _ _ _ _); reflexivity.
Qed.

Lemma quote_loop_Ok_inv (items : list CartItem.t) : forall up mo ls r,
  quote_loop' items up mo ls = Ok r -> Forall item_ok' items.
Proof.
  induction items as [|it items IH]; intros up mo ls r; [constructor|].
  cbn [CheckoutService.quote_loop].
  destruct (Z.ltb_spec (CartItem.qty it) 1); [discriminate|].
  destruct (CheckoutService._price_for_item _ _ _ _ _) as [[[lbl up1] mo1]|]
    eqn:Hp; [|discriminate].
  intros Hr. constructor; [|eapply IH, Hr]. split; [lia|eauto].
Qed.

Lemma in_range_lookup {A} (l : list A) (i : Z) :
  (0 <=? i) && (i <? Z.of_nat (length l)) = true ->
  exists x, l !! Z.to_nat i = Some x.
Proof.
  intros H. apply andb_prop in H as [H1 H2].
  apply Z.leb_le in H1. apply Z.ltb_lt in H2.
  apply lookup_lt_is_Some_2. lia.
Qed.


(** X22: a quote has one line for each item of the cart, in the order of
    the cart, labelled with the label of the item's price, the sign of
    multiplication and the quantity; it carries the currency of the service
    and, as its shipping line, the name of the shipping option at the index
    given. *)
Theorem checkout_quote_lines (self : CheckoutService.t F)
    (items : list CartItem.t) (shipping_option_index : Z) (q : Quote.t F) :
  CheckoutService.quote F CATALOG PLANS self items shipping_option_index = Ok q ->
  map LineSummary.label (Quote.items q) = map (line_label F CATALOG PLANS) items
  /\ Quote.currency q = CheckoutService.currency self
  /\ exists ship,
       CheckoutService.shipping_options self !! Z.to_nat shipping_option_index
       = Some ship
       /\ LineSummary.label (Quote.shipping q) = ShippingOption.name ship.
Proof.
  unfold CheckoutService.quote. destruct items as [|it items]; [discriminate|].
  destruct (negb _); [discriminate|].
  destruct (quote_loop' (it :: items) (fzero F) (fzero F) [])
    as [[[up mo] ls]|] eqn:El; [|discriminate].
  destruct (CheckoutService.shipping_options self !! _) as [ship|];
    [|discriminate].
  intros [= <-]. cbn. split; [|split; [reflexivity|eauto]].
  pose proof (quote_loop_Ok_inv _ _ _ _ _ El) as Hall.
  destruct (quote_loop_ok _ Hall (fzero F) (fzero F) [])
    as (up' & mo' & ls' & El' & Hmap).
  rewrite El in El'. injection El' as _ _ ->. exact Hmap.
Qed.

End CheckoutFacts.

Lemma checkout_quote_lines_witness :
  map LineSummary.label
    (Quote.items
       (Quote.mk "EUR"
          [LineSummary.mk "iPhone 15 ×2" (199800 # 100)]
          (LineSummary.mk "Express" (1500 # 100))
          (LineSummary.mk "Tax (8%)" (16104 # 100))
          (0 # 100) (217404 # 100)))
  = map (line_label exact sample_CATALOG sample_PLANS)
      [CartItem.mk "p-iphone-15" "phone" 2].
Proof.
  apply (checkout_quote_lines exact sample_CATALOG sample_PLANS sample_checkout
           [CartItem.mk "p-iphone-15" "phone" 2] 1).
  vm_compute. reflexivity.
Defined.

